(** * Knowledge Navigator: the agent graph of [server/graph.js]

    A shallow embedding of the LangGraph workflow (planner, tool executor,
    router, responder), of the helper [extractJson] and of the run-state
    channels, with the properties of the orchestration proved over it.

    Conventions.
    - JavaScript values are the inductive [value]; numbers stay abstract
      (a type parameter), everything the source does with them goes through
      the host interface [Host].
    - Strings are [string]s of bytes.  Every pattern the source searches for
      is ASCII, so positions of matches agree with the UTF-16 view.
    - [await]ed calls ([llm.invoke], [tool.invoke]) are nodes of a free
      monad [Eff]; what the environment answers is quantified over.
    - The content of a model response is a string.  Logging ([console.log],
      [console.error]) has no effect on the run and is left out. *)

From Stdlib Require Import String Ascii List Bool Arith Lia ZArith.
From Stdlib Require Import DecimalString.
Import ListNotations.
Local Open Scope list_scope.
Local Open Scope string_scope.

Set Implicit Arguments.
Set Warnings "-register-all".

(** ** Strings *)

Module Str.

Definition LF : string := String "010"%char EmptyString.

(** [strip_prefix p s] is the rest of [s] after its prefix [p], when [s]
    starts with [p]. *)
Fixpoint strip_prefix (p s : string) : option string :=
  match p with
  | EmptyString => Some s
  | String a p' =>
      match s with
      | EmptyString => None
      | String b s' => if Ascii.eqb a b then strip_prefix p' s' else None
      end
  end.

(** [String.prototype.includes]: does [p] occur in [s]? *)
Fixpoint includes (p s : string) : bool :=
  match strip_prefix p s with
  | Some _ => true
  | None => match s with
            | EmptyString => false
            | String _ s' => includes p s'
            end
  end.

(** The last byte of a string: the last code unit of an ASCII text. *)
Fixpoint last_char (s : string) : option string :=
  match s with
  | EmptyString => None
  | String c EmptyString => Some (String c EmptyString)
  | String _ s' => last_char s'
  end.

(** [Array.prototype.join] on strings. *)
Fixpoint join (sep : string) (l : list string) : string :=
  match l with
  | [] => ""
  | [x] => x
  | x :: r => x ++ sep ++ join sep r
  end.

(** [occurs p s]: [p] is a substring of [s]. *)
Definition occurs (p s : string) : Prop := exists a b, s = a ++ p ++ b.

End Str.

(** ** extractJson (graph.js, lines 16-19) *)

Definition fence_open : string := "```json" ++ Str.LF.
Definition fence_close : string := Str.LF ++ "```".

(** The tail of the regular expression, [([\s\S]*?)\n```], tried at the
    start of [s]: the lazy group takes the shortest text after which the
    closing fence matches. *)
Fixpoint lazy_group (s : string) : option string :=
  match Str.strip_prefix fence_close s with
  | Some _ => Some ""
  | None =>
      match s with
      | EmptyString => None
      | String c s' => option_map (String c) (lazy_group s')
      end
  end.

(** The whole expression tried at the start of [s]. *)
Definition match_here (s : string) : option string :=
  match Str.strip_prefix fence_open s with
  | Some rest => lazy_group rest
  | None => None
  end.

(** [str.match(/```json\n([\s\S]*?)\n```/)]: start positions are tried from
    left to right; the result is capture group 1 of the first match. *)
Fixpoint str_match (s : string) : option string :=
  match match_here s with
  | Some g => Some g
  | None =>
      match s with
      | EmptyString => None
      | String _ s' => str_match s'
      end
  end.

Definition extractJson (str : string) : string :=
  match str_match str with
  | Some g => g
  | None => str
  end.

(** The words of the specification: a fenced wrapper around a payload. *)
Definition fenced (x pre payload post : string) : Prop :=
  x = pre ++ fence_open ++ payload ++ fence_close ++ post.

Definition has_wrapper (x : string) : Prop :=
  exists pre payload post, fenced x pre payload post.

(** ** JavaScript values *)

Section Values.

Variable number : Type.

(** What [JSON.parse] and the tools hand to the graph.  An array also
    carries the named properties assigned to it after its creation. *)
Inductive value : Type :=
| VUndefined
| VNull
| VBool (b : bool)
| VNum (n : number)
| VStr (s : string)
| VArr (elems : list value) (own : list (string * value))
| VObj (fields : list (string * value)).

End Values.

Arguments VUndefined {number}.
Arguments VNull {number}.
Arguments VBool {number} b.
Arguments VStr {number} s.

(** Own properties of an object, in insertion order. *)
Module Props.

Fixpoint lookup {A : Type} (k : string) (l : list (string * A)) : option A :=
  match l with
  | [] => None
  | (k', x) :: r => if k' =? k then Some x else lookup k r
  end.

(** Assignment keeps the position of an existing key and appends a new one. *)
Fixpoint assign {A : Type} (k : string) (x : A) (l : list (string * A))
  : list (string * A) :=
  match l with
  | [] => [(k, x)]
  | (k', y) :: r => if k' =? k then (k, x) :: r else (k', y) :: assign k x r
  end.

End Props.

(** Exceptions that can leave a stage or the graph runtime. *)
Inductive exn : Type :=
| TypeError
| GraphRecursionError
| InvalidGraph (node : string)
| External (msg : string).

Inductive result (A : Type) : Type :=
| Ok (a : A)
| Err (e : exn).

Arguments Err {A} e.

(** A registry entry; [schema] lists the fields of the zod object.  The
    [func] of a tool performs network and file access; it is reached only
    through [invoke] (see [ToolInvoke]). *)
Record Tool : Type := {
  name : string;
  description : string;
  schema : list string
}.

(** ** The host: what the JavaScript runtime and the libraries provide *)

Class Host (number : Type) : Type := {
  (** ToBoolean on a number: false on [+0], [-0] and [NaN]. *)
  number_truthy : number -> bool;
  (** Number::toString, as used by template literals. *)
  Number_toString : number -> string;
  (** The property key [ToNumber(v) - 1] of an index expression. *)
  length_pred_key : value number -> string;
  (** [s[s.length - 1]] on a text that is not empty: its last UTF-16 code
      unit, which is half of a surrogate pair when the text ends with
      one. *)
  last_code_unit : string -> string;
  (** [JSON.parse]; [None] stands for the SyntaxError it throws. *)
  JSON_parse : string -> option (value number);
  (** [JSON.stringify(v, null, 2)] on an object or an array. *)
  JSON_stringify : value number -> string;
  (** [new TavilySearch({ maxResults: 3, ... })]. *)
  tavilySearch : Tool;
  (** [JSON.stringify] of the catalogue with the zod schemas. *)
  describe_tools : list Tool -> string
}.

(** ** Effects: the awaited calls of a stage *)

Section Effects.

Variable number : Type.

Inductive Eff (A : Type) : Type :=
| Ret (a : A)
| Throw (e : exn)
| LlmInvoke (prompt : string) (k : string -> Eff A)
| ToolInvoke (t : Tool) (input : value number) (k : value number -> Eff A).

Arguments Throw {A} e.
Arguments Ret {A} a.

Fixpoint bind {A B : Type} (m : Eff A) (f : A -> Eff B) : Eff B :=
  match m with
  | Ret a => f a
  | Throw e => Throw e
  | LlmInvoke p k => LlmInvoke p (fun content => bind (k content) f)
  | ToolInvoke t i k => ToolInvoke t i (fun out => bind (k out) f)
  end.

(** A synchronous computation that may throw. *)
Definition lift {A : Type} (r : result A) : Eff A :=
  match r with
  | Ok a => Ret a
  | Err e => Throw e
  end.

(** A synchronous operation that throws a TypeError when it fails. *)
Definition must {A : Type} (o : option A) : Eff A :=
  match o with
  | Some a => Ret a
  | None => Throw TypeError
  end.

Definition llm_invoke (prompt : string) : Eff string :=
  LlmInvoke prompt (fun content => Ret content).

Definition invoke (t : Tool) (input : value number) : Eff (value number) :=
  ToolInvoke t input (fun out => Ret out).

(** How a computation can end. *)
Inductive outcome (A : Type) : Type :=
| Returned (a : A)
| Raised (e : exn).

Arguments Raised {A} e.

(** [yields m o]: some behaviour of the model and of the tools makes [m]
    end with [o].  An awaited call answers or rejects. *)
Inductive yields {A : Type} : Eff A -> outcome A -> Prop :=
| yields_ret a : yields (Ret a) (Returned a)
| yields_throw e : yields (Throw e) (Raised e)
| yields_llm p k content o :
    yields (k content) o -> yields (LlmInvoke p k) o
| yields_llm_rejects p k msg :
    yields (LlmInvoke p k) (Raised (External msg))
| yields_tool t i k out o :
    yields (k out) o -> yields (ToolInvoke t i k) o
| yields_tool_rejects t i k msg :
    yields (ToolInvoke t i k) (Raised (External msg)).

(** [answered content m rest]: [m] is waiting for the model, and [rest] is
    what remains of it once the model answers [content]. *)
Inductive answered {A : Type} (content : string) : Eff A -> Eff A -> Prop :=
| answered_llm p k : answered content (LlmInvoke p k) (k content).

(** Executable counterparts: is [m] waiting for the model, and what remains
    of it once the model answers [content]. *)
Definition waiting {A : Type} (m : Eff A) : bool :=
  match m with
  | LlmInvoke _ _ => true
  | _ => false
  end.

Definition resume {A : Type} (content : string) (m : Eff A) : Eff A :=
  match m with
  | LlmInvoke _ k => k content
  | _ => m
  end.

(** The tool invocation a computation is waiting for, if any. *)
Definition requested {A : Type} (m : Eff A) : option (Tool * value number) :=
  match m with
  | ToolInvoke t i _ => Some (t, i)
  | _ => None
  end.

(** The exceptions a stage can end with: a TypeError of its own code, or
    the rejection of an awaited call. *)
Definition stage_failure (e : exn) : Prop :=
  e = TypeError \/ exists msg, e = External msg.

(** [ends_in R m]: whenever [m] returns, its result satisfies [R]; whenever
    it throws, the exception is a [stage_failure]. *)
Definition ends_in {A : Type} (R : A -> Prop) (m : Eff A) : Prop :=
  forall o, yields m o ->
            match o with
            | Returned a => R a
            | Raised e => stage_failure e
            end.

(** An executable environment: each awaited call answers or rejects. *)
Inductive reply (A : Type) : Type :=
| Answer (a : A)
| Reject (msg : string).

Arguments Reject {A} msg.

Record Env : Type := {
  llm : string -> reply string;
  call_tool : Tool -> value number -> reply (value number)
}.

Fixpoint run {A : Type} (env : Env) (m : Eff A) : outcome A :=
  match m with
  | Ret a => Returned a
  | Throw e => Raised e
  | LlmInvoke p k =>
      match llm env p with
      | Answer content => run env (k content)
      | Reject msg => Raised (External msg)
      end
  | ToolInvoke t i k =>
      match call_tool env t i with
      | Answer out => run env (k out)
      | Reject msg => Raised (External msg)
      end
  end.

End Effects.

Arguments Ret {number A} a.
Arguments Throw {number A} e.
Arguments LlmInvoke {number A} prompt k.
Arguments ToolInvoke {number A} t input k.
Arguments lift {number A} r.
Arguments must {number A} o.
Arguments llm_invoke {number} prompt.
Arguments Raised {A} e.
Arguments Reject {A} msg.

Declare Scope eff_scope.
Delimit Scope eff_scope with eff.
Notation "x <- m ;; f" := (bind m (fun x => f))
  (at level 61, m at next level, right associativity) : eff_scope.

(** ** The agent graph *)

Section Agent.

Context {number : Type} {host : Host number}.

Local Open Scope eff_scope.
Local Abbreviation value := (value number).
Local Abbreviation Eff := (Eff number).

(** *** Operations of the language used by the stages *)

(** ToBoolean. *)
Definition truthy (v : value) : bool :=
  match v with
  | VUndefined | VNull => false
  | VBool b => b
  | VNum n => number_truthy n
  | VStr s => negb (s =? "")
  | VArr _ _ | VObj _ => true
  end.

Definition or_undefined (o : option value) : value :=
  match o with
  | Some v => v
  | None => VUndefined
  end.

(** In the operations below [None] stands for the TypeError that the
    operation throws. *)

(** [v.k] for the keys the stages read ([plan], [tool], [tool_input]):
    none of them is an index, [length], or a property of a prototype. *)
Definition get (v : value) (k : string) : option value :=
  match v with
  | VUndefined | VNull => None
  | VObj fields => Some (or_undefined (Props.lookup k fields))
  | VArr _ own => Some (or_undefined (Props.lookup k own))
  | VBool _ | VNum _ | VStr _ => Some VUndefined
  end.

(** [v.k = x] in module (strict) code, for the keys the Executor writes
    ([tool_input], [filePath]): assigning to a property of a primitive
    throws. *)
Definition put (v : value) (k : string) (x : value) : option value :=
  match v with
  | VObj fields => Some (VObj (Props.assign k x fields))
  | VArr elems own => Some (VArr elems (Props.assign k x own))
  | VUndefined | VNull | VBool _ | VNum _ | VStr _ => None
  end.

(** [v === s] for a string [s]. *)
Definition strict_eq_string (v : value) (s : string) : bool :=
  match v with
  | VStr s' => s' =? s
  | _ => false
  end.

(** ToString, as applied by a template literal.  An object from
    [JSON.parse] converts through [Object.prototype.toString] unless it has
    a [toString] field of its own, which is never callable. *)
Fixpoint ToString (v : value) : option string :=
  match v with
  | VUndefined => Some "undefined"
  | VNull => Some "null"
  | VBool b => Some (if b then "true" else "false")
  | VNum n => Some (Number_toString n)
  | VStr s => Some s
  | VArr elems _ =>
      (fix each (l : list value) (acc : list string) : option string :=
         match l with
         | [] => Some (Str.join "," (rev acc))
         | x :: r =>
             match x with
             | VUndefined | VNull => each r ("" :: acc)
             | _ => match ToString x with
                    | Some s => each r (s :: acc)
                    | None => None
                    end
             end
         end) elems []
  | VObj fields =>
      match Props.lookup "toString" fields with
      | Some _ => None
      | None => Some "[object Object]"
      end
  end.

(** [v.includes(x)] for a string [x]: [Array.prototype.includes],
    [String.prototype.includes], and a TypeError where [includes] is not a
    function. *)
Definition includes (v : value) (x : string) : option bool :=
  match v with
  | VArr elems _ => Some (existsb (fun e => strict_eq_string e x) elems)
  | VStr s => Some (Str.includes x s)
  | VUndefined | VNull | VBool _ | VNum _ | VObj _ => None
  end.

(** [p[p.length - 1]]. *)
Definition last_of (p : value) : option value :=
  match p with
  | VUndefined | VNull => None
  | VArr elems own =>
      Some (match elems with
            | [] => or_undefined (Props.lookup "-1" own)
            | _ :: _ => last elems VUndefined
            end)
  | VStr s => Some (if s =? "" then VUndefined else VStr (last_code_unit s))
  | VObj fields =>
      let len := or_undefined (Props.lookup "length" fields) in
      Some (or_undefined (Props.lookup (length_pred_key len) fields))
  | VBool _ | VNum _ => Some VUndefined
  end.

(** [typeof v === 'object' && v !== null]. *)
Definition is_object (v : value) : bool :=
  match v with
  | VArr _ _ | VObj _ => true
  | _ => false
  end.

(** *** State definition (lines 22-33) *)

Record Step : Type := { tool : value; tool_output : value }.

Record State : Type := {
  input : string;
  plan : value;
  pastSteps : list Step;
  response : value;
  filePath : option string
}.

(** What a node returns: a value for some of the channels. *)
Record Update : Type := {
  new_plan : option value;
  new_pastSteps : option (list Step);
  new_response : option value
}.

Definition plan_update (p : value) : Update :=
  {| new_plan := Some p; new_pastSteps := None; new_response := None |}.

Definition pastSteps_update (l : list Step) : Update :=
  {| new_plan := None; new_pastSteps := Some l; new_response := None |}.

Definition response_update (r : value) : Update :=
  {| new_plan := None; new_pastSteps := None; new_response := Some r |}.

(** The reducer of the [pastSteps] channel, [(x, y) => x.concat(y)]. *)
Definition pastSteps_reducer (x y : list Step) : list Step := (x ++ y)%list.

(** A channel without reducer keeps the last value written. *)
Definition last_value {A : Type} (old : A) (new : option A) : A :=
  match new with
  | Some v => v
  | None => old
  end.

Definition apply_update (s : State) (u : Update) : State :=
  {| input := input s;
     plan := last_value (plan s) (new_plan u);
     pastSteps := match new_pastSteps u with
                  | Some y => pastSteps_reducer (pastSteps s) y
                  | None => pastSteps s
                  end;
     response := last_value (response s) (new_response u);
     filePath := filePath s |}.

(** [state.filePath] in a condition. *)
Definition filePath_set (s : State) : option string :=
  match filePath s with
  | Some fp => if fp =? "" then None else Some fp
  | None => None
  end.

(** *** Tool definitions (lines 48-173) *)

Definition get_weather_forecast : Tool :=
  {| name := "get_weather_forecast";
     description := "Gets the current weather forecast for a given location.";
     schema := ["latitude"; "longitude"] |}.

Definition github_repo_search : Tool :=
  {| name := "github_repo_search";
     description := "Searches GitHub for repositories matching a query.";
     schema := ["query"] |}.

Definition file_analyst : Tool :=
  {| name := "file_analyst";
     description := "Analyzes the content of a user-provided file.";
     schema := ["filePath"; "query"] |}.

Definition wikipedia_search : Tool :=
  {| name := "wikipedia_search";
     description :=
       "Searches Wikipedia for a given query and returns a summary of the page.";
     schema := ["query"] |}.

Definition arxiv_search : Tool :=
  {| name := "arxiv_search";
     description := "Searches the ArXiv pre-print server for scientific papers.";
     schema := ["query"] |}.

Definition mdn_web_search : Tool :=
  {| name := "mdn_web_search";
     description :=
       "Searches the Mozilla Developer Network (MDN) for web development documentation.";
     schema := ["query"] |}.

Definition tools : list Tool :=
  [ tavilySearch; get_weather_forecast; github_repo_search; file_analyst;
    wikipedia_search; arxiv_search; mdn_web_search ].

(** [tools.find((tool) => tool.name === v)]. *)
Definition find_tool (v : value) : option Tool :=
  find (fun t => strict_eq_string v (name t)) tools.

(** Do the arguments hold every field of the schema of the tool? *)
Definition complete (t : Tool) (args : value) : bool :=
  forallb (fun field => match get args field with
                        | Some VUndefined | None => false
                        | Some _ => true
                        end) (schema t).

(** *** Prompts *)

Definition DQ : string := String "034"%char EmptyString.

Definition text (lines : list string) : string := Str.join Str.LF lines.

Definition planPrompt (query : string) : string :=
  text
    [ "You are a planner agent. Your job is to create a plan to answer a user's query.";
      "";
      "  Here is the user's query:";
      "  " ++ query;
      "";
      "  **Your Task:**";
      "  Determine the single best tool to use to answer the user's query.";
      "  - Formulate a clear and concise instruction for the tool.";
      "  - Available tools: [" ++ Str.join ", " (map name tools) ++ "]";
      "  - Respond with a JSON object containing the plan. For example:";
      "    {" ++ DQ ++ "plan" ++ DQ ++ ": [" ++ DQ
        ++ "Use the 'get_weather_forecast' tool for the location specified in the query."
        ++ DQ ++ "]}";
      "";
      "  **Important Rules:**";
      "  - You must choose only one step.";
      "  - Your response MUST be a valid JSON object." ].

Definition toolCallPrompt (lastStep query : string) : string :=
  text
    [ "Based on the plan step, generate a JSON tool call object for the tool executor.";
      "  Plan Step: " ++ DQ ++ lastStep ++ DQ;
      "  User Query: " ++ DQ ++ query ++ DQ;
      "  Available tools: " ++ describe_tools tools;
      "  ";
      "  Your response must be a single JSON object that is a valid tool call, extracting any necessary parameters from the User Query.";
      "  For example: {" ++ DQ ++ "tool" ++ DQ ++ ": " ++ DQ ++ "github_repo_search"
        ++ DQ ++ ", " ++ DQ ++ "tool_input" ++ DQ ++ ": {" ++ DQ ++ "query" ++ DQ
        ++ ": " ++ DQ ++ "helloworld c++ example" ++ DQ ++ "}}" ].

Definition responderPrompt (query gathered : string) : string :=
  text
    [ "You are the Final Responder. Your task is to synthesize all the gathered information into a single, comprehensive, and user-friendly response.";
      "  Original Query: " ++ query;
      "  Gathered Information:";
      "  " ++ gathered;
      "  ";
      "  Provide a final, well-structured answer. If there was an error in a previous step, explain the error to the user in a helpful way." ].

(** *** 1. Planner (lines 178-211) *)

Definition PLAN_COMPLETE : string := "PLAN_COMPLETE".

(** The body of the [try]: [JSON.parse(extractJson(content)).plan].  [None]
    when it throws (a SyntaxError of the parser, or a TypeError reading
    [plan] of [null]). *)
Definition parse_plan (content : string) : option value :=
  match JSON_parse (extractJson content) with
  | Some parsed =>
      match get parsed "plan" with
      | Some p => Some p
      | None => None
      end
  | None => None
  end.

Definition planner (state : State) : Eff Update :=
  content <- llm_invoke (planPrompt (input state)) ;;
  let plan :=
    match parse_plan content with
    | Some p => p
    | None => VArr [VStr PLAN_COMPLETE] []
    end in
  Ret (plan_update plan).

(** *** 2. Tool executor (lines 214-285) *)

Definition invalid_tool_call : Step :=
  {| tool := VStr "error_handler";
     tool_output :=
       VStr "Error: The model generated an invalid tool call. Please try again." |}.

Definition not_found_message (shown : string) : string :=
  "Error: Tool '" ++ shown ++ "' not found. Please select from the available tools.".

(** Lines 246-249: the uploaded file replaces whatever path the model gave. *)
Definition inject_filePath (state : State) (toolCall : value) : Eff value :=
  selected <- must (get toolCall "tool") ;;
  match strict_eq_string selected "file_analyst", filePath_set state with
  | true, Some fp =>
      tool_input <- must (get toolCall "tool_input") ;;
      toolCall <- (if truthy tool_input then Ret toolCall
                   else must (put toolCall "tool_input" (VObj []))) ;;
      tool_input <- must (get toolCall "tool_input") ;;
      tool_input <- must (put tool_input "filePath" (VStr fp)) ;;
      must (put toolCall "tool_input" tool_input)
  | _, _ => Ret toolCall
  end.

(** Lines 246-284: what the Executor does with a parsed tool call. *)
Definition dispatch (state : State) (toolCall : value) : Eff Update :=
  toolCall <- inject_filePath state toolCall ;;
  selected <- must (get toolCall "tool") ;;
  match find_tool selected with
  | None =>
      shown <- must (ToString selected) ;;
      let tool_output := VStr (not_found_message shown) in
      Ret (pastSteps_update
             [ {| tool := if truthy selected then selected else VStr "unknown_tool";
                  tool_output := tool_output |} ])
  | Some toolToExecute =>
      inputForTool <- must (get toolCall "tool_input") ;;
      let inputForTool :=
        if truthy inputForTool then inputForTool
        else VObj [("query", VStr (input state))] in
      raw_tool_output <- invoke toolToExecute inputForTool ;;
      let tool_output :=
        if is_object raw_tool_output then VStr (JSON_stringify raw_tool_output)
        else raw_tool_output in
      Ret (pastSteps_update [ {| tool := selected; tool_output := tool_output |} ])
  end.

Definition executeTools (state : State) : Eff Update :=
  lastStep <- must (last_of (plan state)) ;;
  shown <- must (ToString lastStep) ;;
  content <- llm_invoke (toolCallPrompt shown (input state)) ;;
  match JSON_parse (extractJson content) with
  | None => Ret (pastSteps_update [invalid_tool_call])
  | Some toolCall => dispatch state toolCall
  end.

(** *** 3. Responder (lines 288-299) *)

Definition show_step (s : Step) : option string :=
  match ToString (tool s) with
  | Some t =>
      match ToString (tool_output s) with
      | Some o => Some ("Step: Executed '" ++ t ++ "'" ++ Str.LF ++ "Result: " ++ o)
      | None => None
      end
  | None => None
  end.

Fixpoint show_steps (l : list Step) : option (list string) :=
  match l with
  | [] => Some []
  | s :: r =>
      match show_step s with
      | Some x =>
          match show_steps r with
          | Some xs => Some (x :: xs)
          | None => None
          end
      | None => None
      end
  end.

Definition step_separator : string :=
  Str.LF ++ Str.LF ++ "---" ++ Str.LF ++ Str.LF.

Definition responder (state : State) : Eff Update :=
  shown <- must (show_steps (pastSteps state)) ;;
  content <- llm_invoke
               (responderPrompt (input state) (Str.join step_separator shown)) ;;
  Ret (response_update (VStr content)).

(** *** Routing (lines 303-312) *)

Definition router (state : State) : result string :=
  if negb (truthy (plan state)) then Ok "responder"
  else
    match includes (plan state) PLAN_COMPLETE with
    | Some true => Ok "responder"
    | Some false => Ok "execute_tools"
    | None => Err TypeError
    end.

(** *** The graph (lines 315-328) and its runtime *)

Definition START : string := "__start__".
Definition END : string := "__end__".

Record StateGraph : Type := {
  nodes : list (string * (State -> Eff Update));
  edges : list (string * string);
  branches : list (string * (State -> result string))
}.

Definition new_StateGraph : StateGraph :=
  {| nodes := []; edges := []; branches := [] |}.

Definition addNode (key : string) (action : State -> Eff Update)
  (g : StateGraph) : StateGraph :=
  {| nodes := (nodes g ++ [(key, action)])%list;
     edges := edges g;
     branches := branches g |}.

Definition addEdge (from to : string) (g : StateGraph) : StateGraph :=
  {| nodes := nodes g;
     edges := (edges g ++ [(from, to)])%list;
     branches := branches g |}.

Definition addConditionalEdges (from : string) (path : State -> result string)
  (g : StateGraph) : StateGraph :=
  {| nodes := nodes g;
     edges := edges g;
     branches := (branches g ++ [(from, path)])%list |}.

Definition workflow : StateGraph :=
  let w := new_StateGraph in
  let w := addNode "planner" planner w in
  let w := addNode "execute_tools" executeTools w in
  let w := addNode "responder" responder w in
  let w := addEdge START "planner" w in
  let w := addConditionalEdges "planner" router w in
  let w := addEdge "execute_tools" "responder" w in
  let w := addEdge "responder" END w in
  w.

(** Where control goes after [node]: the conditional edge of the node when
    it has one, else its edge.  Every node of [workflow] has exactly one of
    the two. *)
Definition successor (g : StateGraph) (node : string) (s : State)
  : result string :=
  match Props.lookup node (branches g) with
  | Some path => path s
  | None =>
      match Props.lookup node (edges g) with
      | Some to => Ok to
      | None => Err (InvalidGraph node)
      end
  end.

(** A point of a run between two stages: the node to run next, the
    run-state, and the nodes that have run, oldest first. *)
Record Config : Type := {
  next : string;
  current : State;
  visited : list string
}.

(** One step: run the node, merge its update into the channels, follow the
    edge out of the node. *)
Definition superstep (g : StateGraph) (c : Config) : Eff Config :=
  match Props.lookup (next c) (nodes g) with
  | None => Throw (InvalidGraph (next c))
  | Some action =>
      update <- action (current c) ;;
      let s := apply_update (current c) update in
      to <- lift (successor g (next c) s) ;;
      Ret {| next := to; current := s; visited := (visited c ++ [next c])%list |}
  end.

Fixpoint pregel_loop (g : StateGraph) (limit : nat) (c : Config) : Eff Config :=
  if next c =? END then Ret c
  else
    match limit with
    | O => Throw GraphRecursionError
    | S limit' => c' <- superstep g c ;; pregel_loop g limit' c'
    end.

Record CompiledGraph : Type := {
  graph : StateGraph;
  recursionLimit : nat
}.

Definition compile (g : StateGraph) (limit : nat) : CompiledGraph :=
  {| graph := g; recursionLimit := limit |}.

Definition app : CompiledGraph := compile workflow 50.

(** The run-state a request starts from: [/chat] supplies [input] and
    [filePath]; [pastSteps] takes its default, the other channels are
    empty. *)
Definition initial_state (query : string) (file : option string) : State :=
  {| input := query;
     plan := VUndefined;
     pastSteps := [];
     response := VUndefined;
     filePath := file |}.

Definition entry_config (query : string) (file : option string) : Config :=
  {| next := "planner"; current := initial_state query file; visited := [] |}.

(** [app.invoke(inputs)], keeping the record of the run. *)
Definition run_graph (a : CompiledGraph) (query : string) (file : option string)
  : Eff Config :=
  let s := initial_state query file in
  entry <- lift (successor (graph a) START s) ;;
  pregel_loop (graph a) (recursionLimit a)
    {| next := entry; current := s; visited := [] |}.

Definition app_invoke (a : CompiledGraph) (query : string) (file : option string)
  : Eff State :=
  c <- run_graph a query file ;; Ret (current c).

(** Configurations a run of [g] can be in, from [c0] on. *)
Inductive reachable (g : StateGraph) (c0 : Config) : Config -> Prop :=
| reachable_start : reachable g c0 c0
| reachable_step c c' :
    reachable g c0 c ->
    next c <> END ->
    yields (superstep g c) (Returned c') ->
    reachable g c0 c'.

(** The configurations of a run of [workflow] for a request: before the
    Planner, after it (the router has chosen [next]), after the Executor,
    and at the end, with or without the Executor. *)
Inductive run_shape (query : string) (file : option string) : Config -> Prop :=
| shape_entry : run_shape query file (entry_config query file)
| shape_planned c :
    visited c = ["planner"] ->
    pastSteps (current c) = [] ->
    router (current c) = Ok (next c) ->
    run_shape query file c
| shape_executed c record :
    visited c = ["planner"; "execute_tools"] ->
    pastSteps (current c) = [record] ->
    router (current c) = Ok "execute_tools" ->
    next c = "responder" ->
    run_shape query file c
| shape_answered c :
    visited c = ["planner"; "responder"] ->
    pastSteps (current c) = [] ->
    router (current c) = Ok "responder" ->
    next c = END ->
    run_shape query file c
| shape_answered_after_tool c record :
    visited c = ["planner"; "execute_tools"; "responder"] ->
    pastSteps (current c) = [record] ->
    router (current c) = Ok "execute_tools" ->
    next c = END ->
    run_shape query file c.

(** Number of invocations of [node] in a record of visited nodes. *)
Definition invocations (node : string) (trace : list string) : nat :=
  count_occ string_dec trace node.

End Agent.

(** ** The caller: the chat endpoint of [server.js] (lines 137-165) *)

Section Server.

Context {number : Type} {host : Host number}.

Local Abbreviation value := (value number).

(** The prompt a stage is sending to the model, if it is waiting for it. *)
Definition asked {A : Type} (m : Eff number A) : option string :=
  match m with
  | LlmInvoke p _ => Some p
  | _ => None
  end.

(** A record the Responder can print: its output is not an object and its
    tool converts to a string. *)
Definition printable (r : @Step number) : Prop :=
  is_object (tool_output r) = false /\ exists shown, ToString (tool r) = Some shown.

(** What a run keeps: the request is never rewritten, the answer is written
    by the Responder only, and every record can be printed. *)
Definition disciplined (query : string) (upload : option string) (c : @Config number) : Prop :=
  input (current c) = query /\
  filePath (current c) = upload /\
  (In "responder" (visited c) ->
   exists answer, response (current c) = VStr answer) /\
  (~ In "responder" (visited c) -> response (current c) = VUndefined) /\
  Forall printable (pastSteps (current c)).







(** What the handler reads of a request: the session
    ([req.isAuthenticated()]), the parsed body ([req.body]: the fields of
    the form multer read or the document [express.json] read, undefined
    when no parser took the request) and the path multer stored the
    uploaded file under, if a file was sent. *)
Record Request : Type := {
  isAuthenticated : bool;
  body : value;
  file : option string
}.

(** [res.status(code).json(body)]. *)
Record Reply : Type := {
  status : nat;
  json : list (string * value)
}.

Definition error_reply (code : nat) (message : string) : Reply :=
  {| status := code; json := [("error", VStr message)] |}.

(** The end of the handler: [res.json({ response: finalState.response })]
    when [invoke] returns, the generic error of the [catch] when it throws. *)
Definition chat_result (o : outcome (@State number)) : Reply :=
  match o with
  | Returned finalState =>
      {| status := 200; json := [("response", response finalState)] |}
  | Raised _ =>
      error_reply 500 "An error occurred while processing your request."
  end.

(** [POST /chat]: [ensureAuthenticated], then the handler.  [resolve] is
    [path.join(__dirname, .)] and [invoke] is [langGraphApp.invoke] on the
    [input] and the [filePath] it is given.  The handler reads
    [req.body.prompt] before its [try]: [Raised] is the exception it then
    throws without having replied, which is left to the framework. *)
Definition chat (resolve : string -> string)
  (invoke : value -> option string -> outcome (@State number)) (req : Request)
  : outcome Reply :=
  if negb (isAuthenticated req)
  then Returned (error_reply 401 "User not authenticated")
  else
    match get (body req) "prompt" with
    | None => Raised TypeError
    | Some userInput =>
        if negb (truthy userInput)
        then Returned (error_reply 400 "Prompt is required")
        else
          let filePath := option_map resolve (file req) in
          Returned (chat_result (invoke userInput filePath))
    end.

(** [langGraphApp.invoke] when the prompt is a text: the run of [app]. *)
Definition invoke_on_text (env : Env number) (query : string)
  (filePath : option string) : outcome (@State number) :=
  run env (app_invoke app query filePath).

End Server.

(** ** The functions of the tools (graph.js, lines 52-172) *)

(** What the functions take from the runtime besides [Host]. *)
Class Runtime (number : Type) : Type := {
  (** [JSON.stringify(v)]: a text, or undefined when [v] is undefined. *)
  JSON_stringify_compact : value number -> value number;
  encodeURIComponent : string -> string;
  (** [String.prototype.trim]. *)
  String_trim : string -> string;
  (** [s[0]] on a text that is not empty: its first UTF-16 code unit. *)
  first_code_unit : string -> string;
  (** [n === 0]. *)
  number_is_zero : number -> bool;
  (** [process.env.GITHUB_TOKEN]. *)
  GITHUB_TOKEN : option string;
  (** The messages of the errors the language throws: reading property
      [k] of [v] when [v] is null or undefined, converting an object to a
      string, calling [v.k] when it is no function, and parsing a response
      body that is not JSON. *)
  cannot_read : value number -> string -> string;
  cannot_convert : string;
  not_a_function : value number -> string -> string;
  invalid_json : string -> string
}.

Section ToolCalls.

Variable number : Type.

(** The awaited calls of the functions of the tools.  A call is answered
    or rejected; the continuation tells what the function does in each
    case.  [Fetch] stands for [fetch] followed by the reading of the body
    ([response.json()] parses it, [response.text()] returns it): both are
    awaited in the same [try] block, or in none. *)
Inductive IO (A : Type) : Type :=
| Pure (a : A)
| Raise (message : string)
| Fetch (url : string) (authorization : option string) (k : reply string -> IO A)
| ReadFile (path : value number) (k : reply string -> IO A)
| AskModel (prompt : string) (k : reply string -> IO A)
| WikipediaSummary (query : value number) (k : reply (value number) -> IO A)
| ParseXml (xml : string) (k : reply (value number) -> IO A)
| TavilyInvoke (input : value number) (k : reply (value number) -> IO A).

Arguments Pure {A} a.
Arguments Raise {A} message.

Fixpoint io_bind {A B : Type} (m : IO A) (f : A -> IO B) : IO B :=
  match m with
  | Pure a => f a
  | Raise message => Raise message
  | Fetch url auth k => Fetch url auth (fun r => io_bind (k r) f)
  | ReadFile path k => ReadFile path (fun r => io_bind (k r) f)
  | AskModel p k => AskModel p (fun r => io_bind (k r) f)
  | WikipediaSummary q k => WikipediaSummary q (fun r => io_bind (k r) f)
  | ParseXml xml k => ParseXml xml (fun r => io_bind (k r) f)
  | TavilyInvoke i k => TavilyInvoke i (fun r => io_bind (k r) f)
  end.

(** [try { m } catch (error) { handler(error.message) }]. *)
Fixpoint catch {A : Type} (m : IO A) (handler : string -> IO A) : IO A :=
  match m with
  | Pure a => Pure a
  | Raise message => handler message
  | Fetch url auth k => Fetch url auth (fun r => catch (k r) handler)
  | ReadFile path k => ReadFile path (fun r => catch (k r) handler)
  | AskModel p k => AskModel p (fun r => catch (k r) handler)
  | WikipediaSummary q k => WikipediaSummary q (fun r => catch (k r) handler)
  | ParseXml xml k => ParseXml xml (fun r => catch (k r) handler)
  | TavilyInvoke i k => TavilyInvoke i (fun r => catch (k r) handler)
  end.

(** [await]: a rejected call throws. *)
Definition awaited {A : Type} (r : reply A) : IO A :=
  match r with
  | Answer a => Pure a
  | Reject message => Raise message
  end.

Definition fetch (url : string) (authorization : option string) : IO string :=
  Fetch url authorization awaited.

Definition readFile (path : value number) : IO string := ReadFile path awaited.

Definition ask_model (prompt : string) : IO string := AskModel prompt awaited.

Definition wikipedia_summary (query : value number) : IO (value number) :=
  WikipediaSummary query awaited.

Definition parseStringPromise (xml : string) : IO (value number) :=
  ParseXml xml awaited.

Definition tavily_invoke (input : value number) : IO (value number) :=
  TavilyInvoke input awaited.

(** [always P m]: whatever the calls answer, [m] throws nothing and returns
    a result that satisfies [P]. *)
Fixpoint always {A : Type} (P : A -> Prop) (m : IO A) : Prop :=
  match m with
  | Pure a => P a
  | Raise _ => False
  | Fetch _ _ k => forall r, always P (k r)
  | ReadFile _ k => forall r, always P (k r)
  | AskModel _ k => forall r, always P (k r)
  | WikipediaSummary _ k => forall r, always P (k r)
  | ParseXml _ k => forall r, always P (k r)
  | TavilyInvoke _ k => forall r, always P (k r)
  end.

(** An executable world: the answers to the calls. *)
Record World : Type := {
  on_fetch : string -> option string -> reply string;
  on_readFile : value number -> reply string;
  on_model : string -> reply string;
  on_summary : value number -> reply (value number);
  on_xml : string -> reply (value number);
  on_tavily : value number -> reply (value number)
}.

(** The result of a function in a world, or the message of the exception
    it throws. *)
Fixpoint perform {A : Type} (w : World) (m : IO A) : A + string :=
  match m with
  | Pure a => inl a
  | Raise message => inr message
  | Fetch url auth k => perform w (k (on_fetch w url auth))
  | ReadFile path k => perform w (k (on_readFile w path))
  | AskModel p k => perform w (k (on_model w p))
  | WikipediaSummary q k => perform w (k (on_summary w q))
  | ParseXml xml k => perform w (k (on_xml w xml))
  | TavilyInvoke i k => perform w (k (on_tavily w i))
  end.

End ToolCalls.

Arguments Pure {number A} a.
Arguments Raise {number A} message.
Arguments Fetch {number A} url authorization k.
Arguments ReadFile {number A} path k.
Arguments AskModel {number A} prompt k.
Arguments WikipediaSummary {number A} query k.
Arguments ParseXml {number A} xml k.
Arguments TavilyInvoke {number A} input k.
Arguments awaited {number A} r.
Arguments fetch {number} url authorization.
Arguments ask_model {number} prompt.
Arguments parseStringPromise {number} xml.

Declare Scope io_scope.
Delimit Scope io_scope with io.
Notation "x <- m ;; f" := (io_bind m (fun x => f))
  (at level 61, m at next level, right associativity) : io_scope.

Section ToolFunctions.

Context {number : Type} {host : Host number} {runtime : Runtime number}.

Local Open Scope io_scope.
Local Abbreviation value := (value number).
Local Abbreviation IO := (IO number).

(** [toolInput?.k]. *)
Definition optional (v : value) (k : string) : value :=
  match get v k with
  | Some x => x
  | None => VUndefined
  end.

(** [v === undefined]. *)
Definition is_undefined (v : value) : bool :=
  match v with
  | VUndefined => true
  | _ => false
  end.

(** [v.k], throwing on null and undefined. *)
Definition read (v : value) (k : string) : IO value :=
  match get v k with
  | Some x => Pure x
  | None => Raise (cannot_read v k)
  end.

(** The conversion of [v] in a template literal. *)
Definition interpolate (v : value) : IO string :=
  match ToString v with
  | Some s => Pure s
  | None => Raise cannot_convert
  end.

(** [response.json()] on a body. *)
Definition body_json (body : string) : IO value :=
  match JSON_parse body with
  | Some data => Pure data
  | None => Raise (invalid_json body)
  end.

(** [v[0]]. *)
Definition first_of (v : value) : IO value :=
  match v with
  | VUndefined | VNull => Raise (cannot_read v "0")
  | VArr elems _ => Pure (hd VUndefined elems)
  | VStr s => Pure (if s =? "" then VUndefined else VStr (first_code_unit s))
  | VObj fields => Pure (or_undefined (Props.lookup "0" fields))
  | VBool _ | VNum _ => Pure VUndefined
  end.

(** [v.trim()]. *)
Definition trimmed (v : value) : IO value :=
  match v with
  | VStr s => Pure (VStr (String_trim s))
  | VUndefined | VNull => Raise (cannot_read v "trim")
  | VBool _ | VNum _ | VArr _ _ | VObj _ => Raise (not_a_function v "trim")
  end.

Fixpoint each {A B : Type} (f : A -> IO B) (l : list A) : IO (list B) :=
  match l with
  | [] => Pure []
  | x :: r => y <- f x ;; ys <- each f r ;; Pure (y :: ys)
  end.

(** [v.map(f)]. *)
Definition array_map (v : value) (f : value -> IO value) : IO (list value) :=
  match v with
  | VArr elems _ => each f elems
  | VUndefined | VNull => Raise (cannot_read v "map")
  | VBool _ | VNum _ | VStr _ | VObj _ => Raise (not_a_function v "map")
  end.

(** [v.length === 0]. *)
Definition length_is_zero (v : value) : bool :=
  match v with
  | VArr [] _ => true
  | VStr s => s =? ""
  | VObj fields =>
      match Props.lookup "length" fields with
      | Some (VNum n) => number_is_zero n
      | _ => false
      end
  | _ => false
  end.

Definition text_value (s : string) : IO value := Pure (VStr s).

Definition missing_query : string :=
  "Error: The tool was called without a 'query' in the input.".

(** Lines 59-74. *)
Definition missing_coordinates : string :=
  "Error: The tool was called without 'latitude' and 'longitude' in the input.".

Definition forecast_url (latitude longitude : string) : string :=
  "https://api.open-meteo.com/v1/forecast?latitude=" ++ latitude
  ++ "&longitude=" ++ longitude
  ++ "&current=temperature_2m,relative_humidity_2m,apparent_temperature,rain,showers,wind_speed_10m&temperature_unit=fahrenheit".

Definition get_weather_forecast_func (toolInput : value) : IO value :=
  let latitude := optional toolInput "latitude" in
  let longitude := optional toolInput "longitude" in
  if is_undefined latitude || is_undefined longitude
  then text_value missing_coordinates
  else
    lat <- interpolate latitude ;;
    lon <- interpolate longitude ;;
    catch (body <- fetch (forecast_url lat lon) None ;;
           data <- body_json body ;;
           current <- read data "current" ;;
           Pure (JSON_stringify_compact current))
      (fun message => text_value ("Error getting weather forecast: " ++ message)).

(** Lines 80-96. *)
Definition repository (item : value) : IO value :=
  full_name <- read item "full_name" ;;
  url <- read item "html_url" ;;
  description <- read item "description" ;;
  Pure (VObj [("full_name", full_name); ("url", url); ("description", description)]).

Definition github_url (query : string) : string :=
  "https://api.github.com/search/repositories?q=" ++ query ++ "&per_page=5".

Definition github_authorization : string :=
  "token " ++ match GITHUB_TOKEN with
              | Some token => token
              | None => "undefined"
              end.

Definition github_repo_search_func (toolInput : value) : IO value :=
  let query := optional toolInput "query" in
  if negb (truthy query) then text_value missing_query
  else
    q <- interpolate query ;;
    body <- fetch (github_url q) (Some github_authorization) ;;
    data <- body_json body ;;
    items <- read data "items" ;;
    repositories <- array_map items repository ;;
    Pure (JSON_stringify_compact (VArr repositories [])).

(** Lines 105-118. *)
Definition missing_file_arguments : string :=
  "Error: The tool was called without 'filePath' and 'query' in the input.".

Definition file_question (content query : string) : string :=
  "File content:" ++ Str.LF ++ Str.LF ++ content ++ Str.LF ++ Str.LF
  ++ "Please answer the following question based on the file: " ++ query.

Definition file_analyst_func (toolInput : value) : IO value :=
  let filePath := optional toolInput "filePath" in
  let query := optional toolInput "query" in
  if negb (truthy filePath) || negb (truthy query)
  then text_value missing_file_arguments
  else
    _ <- interpolate filePath ;;
    q <- interpolate query ;;
    catch (content <- readFile filePath ;;
           answer <- ask_model (file_question content q) ;;
           text_value answer)
      (fun message => text_value ("Error reading or analyzing file: " ++ message)).

(** Lines 124-134. *)
Definition wikipedia_search_func (toolInput : value) : IO value :=
  let query := optional toolInput "query" in
  if negb (truthy query) then text_value missing_query
  else
    q <- interpolate query ;;
    catch (summary <- wikipedia_summary query ;;
           extract <- read summary "extract" ;;
           shown <- interpolate extract ;;
           text_value ("Summary for " ++ DQ ++ q ++ DQ ++ ":" ++ Str.LF ++ shown))
      (fun _ => text_value ("Could not find a Wikipedia page for "
                            ++ DQ ++ q ++ DQ ++ ".")).

(** Lines 140-159. *)
Definition paper (entry : value) : IO value :=
  title <- (t <- read entry "title" ;; first_of t) ;;
  summary <- (s <- read entry "summary" ;; s0 <- first_of s ;; trimmed s0) ;;
  authors <- (a <- read entry "author" ;;
              array_map a (fun author => n <- read author "name" ;; first_of n)) ;;
  url <- (i <- read entry "id" ;; first_of i) ;;
  Pure (VObj [("title", title); ("summary", summary);
              ("authors", VArr authors []); ("url", url)]).

Definition arxiv_url (query : string) : string :=
  "http://export.arxiv.org/api/query?search_query=all:"
  ++ encodeURIComponent query ++ "&start=0&max_results=3".

Definition no_papers (query : string) : string :=
  "No papers found on ArXiv for the query: " ++ DQ ++ query ++ DQ.

Definition arxiv_search_func (toolInput : value) : IO value :=
  let query := optional toolInput "query" in
  if negb (truthy query) then text_value missing_query
  else
    q <- interpolate query ;;
    xmlData <- fetch (arxiv_url q) None ;;
    jsonData <- parseStringPromise xmlData ;;
    feed <- read jsonData "feed" ;;
    entries <- read feed "entry" ;;
    if negb (truthy entries) || length_is_zero entries
    then text_value (no_papers q)
    else
      papers <- array_map entries paper ;;
      Pure (JSON_stringify_compact (VArr papers [])).

(** Lines 165-171. *)
Definition mdn_web_search_func (toolInput : value) : IO value :=
  let query := optional toolInput "query" in
  if negb (truthy query) then text_value missing_query
  else
    q <- interpolate query ;;
    tavily_invoke (VObj [("input", VStr ("site:developer.mozilla.org " ++ q))]).

(** Is the result of a function a text? *)
Definition is_text (v : value) : Prop := exists s, v = VStr s.

End ToolFunctions.

(** ** A small host, for closed examples

    Numbers are integers and texts are ASCII, one byte for a code unit.
    The parser accepts the JSON texts made of
    objects, arrays, strings without escapes, integers without fraction or
    exponent, [true], [false] and [null], on which it returns what
    [JSON.parse] returns; every other text is rejected.  The theorems below
    hold for every host; this one only feeds the examples. *)

Module MiniHost.

Local Open Scope char_scope.

Definition quote : ascii := "034".

Definition is_space (c : ascii) : bool :=
  (c =? " ") || (c =? "009") || (c =? "010") || (c =? "013").

Fixpoint skip_ws (s : string) : string :=
  match s with
  | String c r => if is_space c then skip_ws r else s
  | EmptyString => s
  end.

Definition digit (c : ascii) : option Z :=
  let n := nat_of_ascii c in
  if (48 <=? n)%nat && (n <=? 57)%nat then Some (Z.of_nat (n - 48)) else None.

Fixpoint digits (acc : Z) (s : string) : Z * string :=
  match s with
  | String c r =>
      match digit c with
      | Some d => digits (10 * acc + d)%Z r
      | None => (acc, s)
      end
  | EmptyString => (acc, s)
  end.

(** ['0'] or a non-zero digit followed by digits; a fraction or an exponent
    is outside the fragment. *)
Definition natural (s : string) : option (Z * string) :=
  match s with
  | String c r =>
      match digit c with
      | Some d =>
          let '(n, rest) := if (d =? 0)%Z then (0%Z, r) else digits d r in
          match rest with
          | String c' _ =>
              if (c' =? ".") || (c' =? "e") || (c' =? "E") then None
              else match digit c' with
                   | Some _ => None
                   | None => Some (n, rest)
                   end
          | EmptyString => Some (n, rest)
          end
      | None => None
      end
  | EmptyString => None
  end.

(** The characters of a string up to its closing quote. *)
Fixpoint string_body (s : string) : option (string * string) :=
  match s with
  | String c r =>
      if c =? quote then Some (EmptyString, r)
      else if (c =? "\") || (nat_of_ascii c <? 32)%nat then None
      else match string_body r with
           | Some (body, rest) => Some (String c body, rest)
           | None => None
           end
  | EmptyString => None
  end.

Inductive mode : Type :=
| MValue
| MElements (acc : list (value Z))
| MMembers (acc : list (string * value Z)).

Definition keyword (word : string) (v : value Z) (s : string)
  : option (value Z * string) :=
  match Str.strip_prefix word s with
  | Some rest => Some (v, rest)
  | None => None
  end.

Fixpoint parse_from (fuel : nat) (m : mode) (s : string)
  : option (value Z * string) :=
  match fuel with
  | O => None
  | S fuel =>
      match m with
      | MValue =>
          match skip_ws s with
          | String c r =>
              if c =? "{" then
                match skip_ws r with
                | String c' r' =>
                    if c' =? "}" then Some (VObj [], r')
                    else parse_from fuel (MMembers []) r
                | EmptyString => None
                end
              else if c =? "[" then
                match skip_ws r with
                | String c' r' =>
                    if c' =? "]" then Some (VArr [] [], r')
                    else parse_from fuel (MElements []) r
                | EmptyString => None
                end
              else if c =? quote then
                match string_body r with
                | Some (body, rest) => Some (VStr body, rest)
                | None => None
                end
              else if c =? "t" then keyword "true" (VBool true) (String c r)
              else if c =? "f" then keyword "false" (VBool false) (String c r)
              else if c =? "n" then keyword "null" VNull (String c r)
              else if c =? "-" then
                match natural r with
                | Some (n, rest) => Some (VNum (- n)%Z, rest)
                | None => None
                end
              else
                match natural (String c r) with
                | Some (n, rest) => Some (VNum n, rest)
                | None => None
                end
          | EmptyString => None
          end
      | MElements acc =>
          match parse_from fuel MValue s with
          | Some (v, r) =>
              match skip_ws r with
              | String c r' =>
                  if c =? "," then parse_from fuel (MElements (acc ++ [v])%list) r'
                  else if c =? "]" then Some (VArr (acc ++ [v])%list [], r')
                  else None
              | EmptyString => None
              end
          | None => None
          end
      | MMembers acc =>
          match skip_ws s with
          | String c r =>
              if c =? quote then
                match string_body r with
                | Some (key, r1) =>
                    match skip_ws r1 with
                    | String c1 r2 =>
                        if c1 =? ":" then
                          match parse_from fuel MValue r2 with
                          | Some (v, r3) =>
                              match skip_ws r3 with
                              | String c3 r4 =>
                                  if c3 =? "," then
                                    parse_from fuel (MMembers (Props.assign key v acc)) r4
                                  else if c3 =? "}" then
                                    Some (VObj (Props.assign key v acc), r4)
                                  else None
                              | EmptyString => None
                              end
                          | None => None
                          end
                        else None
                    | EmptyString => None
                    end
                | None => None
                end
              else None
          | EmptyString => None
          end
      end
  end.

Definition parse (s : string) : option (value Z) :=
  match parse_from (2 * String.length s + 2) MValue s with
  | Some (v, rest) =>
      match skip_ws rest with
      | EmptyString => Some v
      | String _ _ => None
      end
  | None => None
  end.

Definition show_Z (z : Z) : string := NilZero.string_of_int (Z.to_int z).

(** A string between quotes; the quote and the backslash are escaped. *)
Fixpoint escape (s : string) : string :=
  match s with
  | String c r =>
      if (c =? quote) || (c =? "\") then String "\" (String c (escape r))
      else String c (escape r)
  | EmptyString => EmptyString
  end.

Definition quoted (s : string) : string :=
  String quote (escape s ++ String quote EmptyString).

(** [JSON.stringify(v, null, 2)] on values whose strings hold no control
    character, [pad] being the current indentation. *)
Fixpoint stringify (pad : string) (v : value Z) {struct v} : string :=
  let inner := ("  " ++ pad)%string in
  match v with
  | VUndefined | VNull => "null"
  | VBool b => if b then "true" else "false"
  | VNum n => show_Z n
  | VStr s => quoted s
  | VArr elems _ =>
      match elems with
      | [] => "[]"
      | _ :: _ =>
          let items := map (fun e => (inner ++ stringify inner e)%string) elems in
          ("[" ++ Str.LF ++ Str.join ("," ++ Str.LF) items ++ Str.LF ++ pad ++ "]")%string
      end
  | VObj fields =>
      let items :=
        flat_map
          (fun '(key, e) =>
             match e with
             | VUndefined => []
             | _ => [ (inner ++ quoted key ++ ": " ++ stringify inner e)%string ]
             end) fields in
      match items with
      | [] => "{}"
      | _ :: _ =>
          ("{" ++ Str.LF ++ Str.join ("," ++ Str.LF) items ++ Str.LF ++ pad ++ "}")%string
      end
  end.

(** [ToNumber(v) - 1] as a property key.  Strings, arrays and objects are
    taken as not numeric, which is exact unless their text spells a
    number. *)
Definition pred_key (v : value Z) : string :=
  match v with
  | VNull | VBool false => "-1"
  | VBool true => "0"
  | VNum n => show_Z (n - 1)
  | VUndefined | VStr _ | VArr _ _ | VObj _ => "NaN"
  end.

#[export] Instance host : Host Z := {|
  number_truthy := fun n => negb (n =? 0)%Z;
  Number_toString := show_Z;
  length_pred_key := pred_key;
  last_code_unit := fun s => match Str.last_char s with
                             | Some c => c
                             | None => EmptyString
                             end;
  JSON_parse := parse;
  JSON_stringify := stringify "";
  tavilySearch := {| name := "tavily_search";
                     description := "A search engine optimized for comprehensive, accurate, and trusted results.";
                     schema := ["query"%string] |};
  describe_tools := fun l => ("[" ++ Str.join "," (map name l) ++ "]")%string
|}.

End MiniHost.

(** ** A small runtime for the functions of the tools, over [MiniHost]

    [trim] strips ASCII white space; the messages of errors are fixed
    texts standing for those of the engine.  As with [MiniHost], the
    theorems hold for every runtime and this one feeds the examples. *)

Module MiniRuntime.

Import MiniHost.

Local Open Scope char_scope.

(** [JSON.stringify(v)] on a value that is not undefined. *)
Fixpoint compact (v : value Z) {struct v} : string :=
  match v with
  | VUndefined | VNull => "null"
  | VBool b => if b then "true" else "false"
  | VNum n => show_Z n
  | VStr s => quoted s
  | VArr elems _ => ("[" ++ Str.join "," (map compact elems) ++ "]")%string
  | VObj fields =>
      ("{" ++ Str.join ","
                (flat_map
                   (fun '(key, e) =>
                      match e with
                      | VUndefined => []
                      | _ => [ (quoted key ++ ":" ++ compact e)%string ]
                      end) fields)
       ++ "}")%string
  end.

Definition hex_digit (n : nat) : ascii :=
  ascii_of_nat (if (n <? 10)%nat then 48 + n else 55 + n).

Definition unreserved (c : ascii) : bool :=
  let n := nat_of_ascii c in
  ((48 <=? n) && (n <=? 57) || (65 <=? n) && (n <=? 90)
   || (97 <=? n) && (n <=? 122))%nat
  || (c =? "-") || (c =? "_") || (c =? ".") || (c =? "!") || (c =? "~")
  || (c =? "*") || (c =? "'") || (c =? "(") || (c =? ")").

(** Every byte that is not unreserved becomes [%XX]. *)
Fixpoint percent_encode (s : string) : string :=
  match s with
  | EmptyString => EmptyString
  | String c r =>
      if unreserved c then String c (percent_encode r)
      else
        let n := nat_of_ascii c in
        String "%" (String (hex_digit (n / 16))
                      (String (hex_digit (n mod 16)) (percent_encode r)))
  end.

Definition is_blank (c : ascii) : bool :=
  (c =? " ") || (c =? "009") || (c =? "010") || (c =? "011") || (c =? "012")
  || (c =? "013").

Fixpoint trim_start (s : string) : string :=
  match s with
  | String c r => if is_blank c then trim_start r else s
  | EmptyString => s
  end.

(** [s] without its trailing blanks. *)
Fixpoint trim_end (s : string) : string :=
  match s with
  | EmptyString => EmptyString
  | String c r =>
      match trim_end r with
      | EmptyString => if is_blank c then EmptyString else String c EmptyString
      | kept => String c kept
      end
  end.

Definition nullish (v : value Z) : string :=
  match v with
  | VNull => "null"%string
  | _ => "undefined"%string
  end.

#[export] Instance runtime : Runtime Z := {|
  JSON_stringify_compact := fun v => match v with
                                     | VUndefined => VUndefined
                                     | _ => VStr (compact v)
                                     end;
  encodeURIComponent := percent_encode;
  String_trim := fun s => trim_end (trim_start s);
  first_code_unit := fun s => match s with
                              | String c _ => String c EmptyString
                              | EmptyString => EmptyString
                              end;
  number_is_zero := fun n => (n =? 0)%Z;
  GITHUB_TOKEN := None;
  cannot_read := fun v k =>
    ("Cannot read properties of " ++ nullish v ++ " (reading '" ++ k ++ "')")%string;
  cannot_convert := "Cannot convert object to primitive value";
  not_a_function := fun _ k => (k ++ " is not a function")%string;
  invalid_json := fun _ => "Unexpected token in JSON"%string
|}.

Local Open Scope string_scope.

(** A world without network: every request is rejected. *)
Definition offline : World Z :=
  {| on_fetch := fun _ _ => Reject "fetch failed";
     on_readFile := fun _ => Reject "ENOENT: no such file or directory";
     on_model := fun _ => Reject "fetch failed";
     on_summary := fun _ => Reject "fetch failed";
     on_xml := fun _ => Reject "Non-whitespace before first tag.";
     on_tavily := fun _ => Reject "fetch failed" |}.

End MiniRuntime.

(** ** Example requests, replies and environments (over [MiniHost]) *)

Module Examples.

Import MiniHost.

Definition quoted_text (s : string) : string := DQ ++ s ++ DQ.

Definition member (key json : string) : string := quoted_text key ++ ": " ++ json.

Definition object (members : list string) : string :=
  "{" ++ Str.join ", " members ++ "}".

Definition query : string := "Who was Ada Lovelace?".

Definition step : string :=
  "Use the 'wikipedia_search' tool to look up Ada Lovelace.".

Definition upload : string := "/srv/app/uploads/5f2c9a".

(** Replies of the model. *)
Definition plan_reply : string :=
  object [member "plan" ("[" ++ quoted_text step ++ "]")].

Definition empty_plan_reply : string := object [member "plan" "[]"].

Definition prose_reply : string := "I could not produce a tool call.".

Definition call_wikipedia : string :=
  fence_open
  ++ object [member "tool" (quoted_text "wikipedia_search");
             member "tool_input" (object [member "query" (quoted_text "Ada Lovelace")])]
  ++ fence_close.

Definition call_unknown : string :=
  object [member "tool" (quoted_text "calculator");
          member "tool_input" (object [member "expression" (quoted_text "1")])].

Definition call_incomplete : string :=
  object [member "tool" (quoted_text "wikipedia_search");
          member "tool_input" (object [])].

Definition call_without_arguments : string :=
  object [member "tool" (quoted_text "wikipedia_search")].

Definition call_file_guess : string :=
  object [member "tool" (quoted_text "file_analyst");
          member "tool_input"
            (object [member "filePath" (quoted_text "/tmp/guess.txt");
                     member "query" (quoted_text "Summarise the file")])].

Definition call_file_text : string :=
  object [member "tool" (quoted_text "file_analyst");
          member "tool_input" (quoted_text "notes.txt")].

Definition call_file_bare : string :=
  object [member "tool" (quoted_text "file_analyst")].

(** What [JSON.parse] makes of some of these replies. *)
Definition parsed_unknown : value Z :=
  VObj [("tool", VStr "calculator");
        ("tool_input", VObj [("expression", VStr "1")])].

Definition parsed_without_arguments : value Z :=
  VObj [("tool", VStr "wikipedia_search")].

Definition parsed_file_guess : value Z :=
  VObj [("tool", VStr "file_analyst");
        ("tool_input", VObj [("filePath", VStr "/tmp/guess.txt");
                             ("query", VStr "Summarise the file")])].

Definition parsed_file_bare : value Z := VObj [("tool", VStr "file_analyst")].

Definition guessed_arguments : value Z :=
  VObj [("filePath", VStr "/tmp/guess.txt"); ("query", VStr "Summarise the file")].

(** The run-state after the Planner, with or without an uploaded file. *)
Definition planned (file : option string) : @State Z :=
  {| input := query;
     plan := VArr [VStr step] [];
     pastSteps := [];
     response := VUndefined;
     filePath := file |}.

(** An environment whose model answers [plan_text] to the Planner,
    [call_text] to the Executor and a fixed sentence to the Responder, and
    whose tools return a text. *)
Definition scripted (plan_text call_text : string) : Env Z :=
  {| llm := fun prompt =>
              if Str.includes "You are a planner agent" prompt then Answer plan_text
              else if Str.includes "generate a JSON tool call object" prompt
                   then Answer call_text
                   else Answer "Ada Lovelace wrote the first published program.";
     call_tool := fun t _ => Answer (VStr ("Result of " ++ name t)) |}.

(** The configuration at the end of a run, or the entry when the run
    throws. *)
Definition final_config (env : Env Z) (file : option string) : @Config Z :=
  match run env (run_graph app query file) with
  | Returned c => c
  | Raised _ => entry_config query file
  end.

(** The run of [app] on [query] when the model plans a Wikipedia search. *)
Definition ada_env : Env Z := scripted plan_reply call_wikipedia.

Definition ada_final : @Config Z := final_config ada_env None.

End Examples.

(** ** Further examples *)

Module MoreExamples.

Import MiniHost MiniRuntime Examples.

Definition parsed_wikipedia : value Z :=
  VObj [("tool", VStr "wikipedia_search");
        ("tool_input", VObj [("query", VStr "Ada Lovelace")])].

Definition parsed_file_text : value Z :=
  VObj [("tool", VStr "file_analyst"); ("tool_input", VStr "notes.txt")].

(** The model plans a step, then answers the Executor in prose. *)
Definition prose_call_env : Env Z := scripted plan_reply prose_reply.

(** The model answers the Planner in prose. *)
Definition prose_plan_env : Env Z := scripted prose_reply call_wikipedia.

Definition file_arguments : value Z :=
  VObj [("filePath", VStr upload); ("query", VStr "Summarise the file")].

Definition search_arguments : value Z :=
  VObj [("query", VStr "proof assistant")].

(** The body of an answer of the GitHub search, and its item. *)
Definition github_item : value Z :=
  VObj [("full_name", VStr "rocq-prover/rocq");
        ("html_url", VStr "https://github.com/rocq-prover/rocq");
        ("description", VStr "The Rocq Prover");
        ("stargazers_count", VNum 5000%Z)].

Definition github_body : string :=
  object [member "total_count" "1";
          member "items"
            ("[" ++ object [member "full_name" (quoted_text "rocq-prover/rocq");
                            member "html_url"
                              (quoted_text "https://github.com/rocq-prover/rocq");
                            member "description" (quoted_text "The Rocq Prover");
                            member "stargazers_count" "5000"]
             ++ "]")].

(** What the tool returns on that body: the fields kept, serialized. *)
Definition github_answer : string :=
  "[{" ++ quoted_text "full_name" ++ ":" ++ quoted_text "rocq-prover/rocq" ++ ","
  ++ quoted_text "url" ++ ":" ++ quoted_text "https://github.com/rocq-prover/rocq"
  ++ "," ++ quoted_text "description" ++ ":" ++ quoted_text "The Rocq Prover"
  ++ "}]".

(** What xml2js makes of a feed without entries. *)
Definition empty_feed : value Z :=
  VObj [("feed", VObj [("title", VArr [VStr "ArXiv Query"] [])])].

(** The body of a request that carries [prompt], and a signed-in request
    without file. *)
Definition ask (prompt : string) : value Z := VObj [("prompt", VStr prompt)].

Definition signed_in (body : value Z) : @Request Z :=
  {| isAuthenticated := true; body := body; file := None |}.

(** An invocation of the application that is the run of the graph in
    [ada_env] when the prompt is a text; another prompt is taken as
    printed. *)
Definition ada_invoke (prompt : value Z) (filePath : option string)
  : outcome (@State Z) :=
  match prompt with
  | VStr q => invoke_on_text ada_env q filePath
  | _ => match ToString prompt with
         | Some q => invoke_on_text ada_env q filePath
         | None => Raised TypeError
         end
  end.




End MoreExamples.

(** * Properties *)

Unset Implicit Arguments.

(** ** Strings *)

Module StrFacts.

Lemma append_assoc (a b c : string) : (a ++ b) ++ c = a ++ (b ++ c).
Proof. induction a as [|x a IH]; simpl; [reflexivity | now rewrite IH]. Qed.

Lemma append_nil_r (a : string) : a ++ "" = a.
Proof. induction a as [|x a IH]; simpl; [reflexivity | now rewrite IH]. Qed.

Lemma length_append (a b : string) :
  String.length (a ++ b) = String.length a + String.length b.
Proof. induction a as [|x a IH]; simpl; [reflexivity | now rewrite IH]. Qed.

Lemma strip_prefix_Some (p s r : string) :
  Str.strip_prefix p s = Some r <-> s = p ++ r.
Proof.
  revert s; induction p as [|a p IH]; intros s; simpl.
  - split; [intros [= ->] | intros ->]; reflexivity.
  - destruct s as [|b s]; [split; discriminate |].
    destruct (Ascii.eqb_spec a b) as [-> | Hab].
    + rewrite IH. split; [intros -> | intros [= ->]]; reflexivity.
    + split; [discriminate | intros [= Hb _]; congruence].
Qed.

Lemma append_cancel_l (p r t : string) : p ++ r = p ++ t -> r = t.
Proof. induction p as [|a p IH]; simpl; [easy | intros [= H]; auto]. Qed.

Lemma strip_prefix_append (p r : string) : Str.strip_prefix p (p ++ r) = Some r.
Proof. now apply strip_prefix_Some. Qed.

(** Two ways to cut one string: the shorter head is a prefix of the longer. *)
Lemma append_split (p r q t : string) :
  p ++ r = q ++ t -> String.length p <= String.length q ->
  exists m, q = p ++ m /\ r = m ++ t.
Proof.
  revert q; induction p as [|a p IH]; intros q H Hlen; simpl in *.
  - exists q. now split.
  - destruct q as [|b q]; simpl in *; [lia |].
    injection H as -> H.
    destruct (IH q H ltac:(lia)) as (m & -> & ->).
    exists m. now split.
Qed.

Lemma includes_occurs (p s : string) :
  Str.includes p s = true <-> Str.occurs p s.
Proof.
  induction s as [|c s IH]; simpl.
  - destruct (Str.strip_prefix p "") as [r|] eqn:E.
    + split; [intros _ | reflexivity].
      apply strip_prefix_Some in E. now exists "", r.
    + split; [discriminate |].
      intros (a & b & H). destruct a.
      * change ("" = p ++ b) in H. apply strip_prefix_Some in H. congruence.
      * discriminate.
  - destruct (Str.strip_prefix p (String c s)) as [r|] eqn:E.
    + split; [intros _ | reflexivity].
      apply strip_prefix_Some in E. now exists "", r.
    + rewrite IH. split.
      * intros (a & b & ->). now exists (String c a), b.
      * intros (a & b & H). destruct a as [|x a].
        -- change (String c s = p ++ b) in H.
           apply strip_prefix_Some in H. congruence.
        -- injection H as _ ->. now exists a, b.
Qed.

End StrFacts.

(** ** extractJson *)

Section ExtractJson.

Import StrFacts.

Lemma lazy_group_sound (s g : string) :
  lazy_group s = Some g -> exists post, s = g ++ fence_close ++ post.
Proof.
  revert g; induction s as [|c s IH]; intros g; cbn [lazy_group].
  - simpl. discriminate.
  - destruct (Str.strip_prefix fence_close (String c s)) as [r|] eqn:E.
    + intros [= <-]. apply strip_prefix_Some in E. now exists r.
    + destruct (lazy_group s) as [g'|]; simpl; [|discriminate].
      intros [= <-]. destruct (IH g' eq_refl) as (post & ->).
      now exists post.
Qed.

(** The lazy group is the shortest one: no closing fence starts before the
    one that ends it. *)
Lemma lazy_group_shortest (s g : string) :
  lazy_group s = Some g ->
  forall a b, s = a ++ fence_close ++ b -> String.length g <= String.length a.
Proof.
  revert g; induction s as [|c s IH]; intros g; cbn [lazy_group].
  - simpl. discriminate.
  - destruct (Str.strip_prefix fence_close (String c s)) as [r|] eqn:E.
    + intros [= <-] a b _. simpl. lia.
    + destruct (lazy_group s) as [g'|]; simpl; [|discriminate].
      intros [= <-] a b H. destruct a as [|x a].
      * change (String c s = fence_close ++ b) in H.
        apply strip_prefix_Some in H. congruence.
      * injection H as _ H. simpl. specialize (IH g' eq_refl a b H). lia.
Qed.

Lemma lazy_group_complete (a b : string) :
  lazy_group (a ++ fence_close ++ b) <> None.
Proof.
  induction a as [|x a IH].
  - simpl. discriminate.
  - change (String x a ++ fence_close ++ b)
      with (String x (a ++ fence_close ++ b)).
    cbn [lazy_group].
    destruct (Str.strip_prefix fence_close (String x (a ++ fence_close ++ b)));
      [discriminate |].
    destruct (lazy_group (a ++ fence_close ++ b)); [discriminate | congruence].
Qed.

Lemma match_here_complete (payload post : string) :
  match_here (fence_open ++ payload ++ fence_close ++ post) <> None.
Proof.
  unfold match_here. rewrite strip_prefix_append. apply lazy_group_complete.
Qed.

(** A successful match is the leftmost opening fence, followed by the
    shortest payload that a closing fence ends. *)
Lemma str_match_sound (s g : string) :
  str_match s = Some g ->
  exists pre post,
    fenced s pre g post /\
    (forall a b, s = a ++ fence_open ++ b -> String.length pre <= String.length a) /\
    (forall a b, s = pre ++ fence_open ++ a ++ fence_close ++ b ->
                 String.length g <= String.length a).
Proof.
  revert g; induction s as [|c s IH]; intros g.
  - simpl. unfold match_here. simpl. discriminate.
  - cbn [str_match]. destruct (match_here (String c s)) as [g0|] eqn:E.
    + intros [= <-]. unfold match_here in E.
      destruct (Str.strip_prefix fence_open (String c s)) as [rest|] eqn:P;
        [|discriminate].
      apply strip_prefix_Some in P.
      destruct (lazy_group_sound rest g0 E) as (post & Hrest).
      exists "", post. split; [|split].
      * unfold fenced. now rewrite P, Hrest.
      * intros a b _. simpl. lia.
      * intros a b H. rewrite P in H.
        change (fence_open ++ rest = fence_open ++ a ++ fence_close ++ b) in H.
        apply append_cancel_l in H.
        exact (lazy_group_shortest rest g0 E a b H).
    + intros H. destruct (IH g H) as (pre & post & Hf & Hleft & Hshort).
      exists (String c pre), post. split; [|split].
      * unfold fenced in *. rewrite Hf at 1. reflexivity.
      * intros a b Hab. destruct a as [|x a].
        -- exfalso. unfold fenced in Hf.
           change (String c s = fence_open ++ b) in Hab.
           assert (Hcut : fence_open ++ b
                          = (String c pre ++ fence_open) ++ g ++ fence_close ++ post).
           { rewrite append_assoc, <- Hab, Hf at 1. reflexivity. }
           apply append_split in Hcut;
             [| rewrite length_append; simpl; lia].
           destruct Hcut as (m & _ & Hb).
           unfold match_here in E. rewrite Hab, strip_prefix_append in E.
           rewrite Hb, <- append_assoc in E.
           now apply lazy_group_complete in E.
        -- injection Hab as _ Hs. specialize (Hleft a b Hs). simpl. lia.
      * intros a b Hab. injection Hab as Hs. exact (Hshort a b Hs).
Qed.

Lemma str_match_complete (pre payload post : string) :
  str_match (pre ++ fence_open ++ payload ++ fence_close ++ post) <> None.
Proof.
  induction pre as [|x pre IH].
  - change ("" ++ fence_open ++ payload ++ fence_close ++ post)
      with (fence_open ++ payload ++ fence_close ++ post).
    pose proof (match_here_complete payload post) as H.
    destruct (fence_open ++ payload ++ fence_close ++ post) eqn:E;
      cbn [str_match]; destruct (match_here _); congruence.
  - change (String x pre ++ fence_open ++ payload ++ fence_close ++ post)
      with (String x (pre ++ fence_open ++ payload ++ fence_close ++ post)).
    cbn [str_match]. destruct (match_here _); [discriminate | exact IH].
Qed.

Lemma str_match_None (x : string) : str_match x = None -> ~ has_wrapper x.
Proof.
  intros H (pre & payload & post & ->). now apply str_match_complete in H.
Qed.

(** The payload of a match contains no match. *)
Lemma str_match_payload (x g : string) : str_match x = Some g -> str_match g = None.
Proof.
  intros H. destruct (str_match g) as [g'|] eqn:E; [exfalso | reflexivity].
  destruct (str_match_sound x g H) as (pre & post & Hf & _ & Hshort).
  destruct (str_match_sound g g' E) as (pre' & post' & Hf' & _ & _).
  unfold fenced in Hf, Hf'.
  specialize (Hshort (pre' ++ fence_open ++ g') (post' ++ fence_close ++ post)).
  assert (Hlen : String.length g <= String.length (pre' ++ fence_open ++ g')).
  { apply Hshort. rewrite Hf at 1. rewrite Hf' at 1.
    now rewrite !append_assoc. }
  rewrite Hf' in Hlen at 1. rewrite !length_append in Hlen.
  unfold fence_close in Hlen. simpl in Hlen. lia.
Qed.

(** C3.  [extractJson] returns the payload of the fenced block tagged json
    when the text holds one (the leftmost opening fence and the shortest
    payload a closing fence ends), and its argument unchanged otherwise. *)
Theorem extractJson_fenced_or_unchanged (x : string) :
  (exists pre payload post,
      fenced x pre payload post /\
      (forall a b, x = a ++ fence_open ++ b -> String.length pre <= String.length a) /\
      (forall a b, x = pre ++ fence_open ++ a ++ fence_close ++ b ->
                   String.length payload <= String.length a) /\
      extractJson x = payload)
  \/ (~ has_wrapper x /\ extractJson x = x).
Proof.
  unfold extractJson. destruct (str_match x) as [g|] eqn:E.
  - left. destruct (str_match_sound x g E) as (pre & post & Hf & Hleft & Hshort).
    exists pre, g, post. repeat split; assumption.
  - right. split; [now apply str_match_None | reflexivity].
Qed.

(** C4.  Extraction is idempotent. *)
Theorem extractJson_idempotent (x : string) :
  extractJson (extractJson x) = extractJson x.
Proof.
  unfold extractJson at 2 3. destruct (str_match x) as [g|] eqn:E.
  - unfold extractJson. now rewrite (str_match_payload x g E).
  - unfold extractJson. now rewrite E.
Qed.

End ExtractJson.

(** ** Stages *)

Section Stages.

Context {number : Type} {host : Host number}.

Local Abbreviation value := (value number).
Local Abbreviation Eff := (Eff number).
Local Abbreviation State := (@State number).
Local Abbreviation Update := (@Update number).
Local Abbreviation Config := (@Config number).
Local Abbreviation Env := (Env number).

(** *** Objects *)

Lemma lookup_assign_same {A : Type} (k : string) (x : A) (l : list (string * A)) :
  Props.lookup k (Props.assign k x l) = Some x.
Proof.
  induction l as [|[k' y] l IH]; simpl.
  - now rewrite String.eqb_refl.
  - destruct (String.eqb_spec k' k) as [-> | Hk]; simpl.
    + now rewrite String.eqb_refl.
    + apply String.eqb_neq in Hk. now rewrite Hk.
Qed.

Lemma lookup_assign_other {A : Type} (k k' : string) (x : A) (l : list (string * A)) :
  k <> k' -> Props.lookup k' (Props.assign k x l) = Props.lookup k' l.
Proof.
  intros Hk. induction l as [|[k0 y] l IH]; simpl.
  - apply String.eqb_neq in Hk. now rewrite Hk.
  - destruct (String.eqb_spec k0 k) as [-> | Hk0]; simpl.
    + apply String.eqb_neq in Hk. now rewrite Hk.
    + now rewrite IH.
Qed.

Lemma get_put_same (v v' x : value) (k : string) :
  put v k x = Some v' -> get v' k = Some x.
Proof.
  destruct v; simpl; intros [= <-]; simpl; now rewrite lookup_assign_same.
Qed.

Lemma get_put_other (v v' x : value) (k k' : string) :
  k <> k' -> put v k x = Some v' -> get v' k' = get v k'.
Proof.
  intros Hk. destruct v; simpl; intros [= <-]; simpl;
    now rewrite lookup_assign_other.
Qed.

(** A value with a string-valued property is an object: it takes writes. *)
Lemma put_defined (v y : value) (k k' : string) (s : string) :
  get v k = Some (VStr s) -> exists v', put v k' y = Some v'.
Proof.
  destruct v; simpl; intros H; try discriminate; eauto.
Qed.

(** *** The registry *)

Lemma find_name_None (l : list Tool) (n : string) :
  ~ In n (map name l) ->
  find (fun t => strict_eq_string (@VStr number n) (name t)) l = None.
Proof.
  induction l as [|t l IH]; simpl; intros H; [reflexivity |].
  destruct (String.eqb_spec n (name t)) as [-> | Hn].
  - exfalso. apply H. now left.
  - apply IH. intros Hin. apply H. now right.
Qed.

Lemma find_name_Some (l : list Tool) (n : string) :
  In n (map name l) ->
  exists t, find (fun t => strict_eq_string (@VStr number n) (name t)) l = Some t
            /\ name t = n /\ In t l.
Proof.
  induction l as [|t l IH]; simpl; intros H; [contradiction |].
  destruct (String.eqb_spec n (name t)) as [-> | Hn].
  - exists t. repeat split; auto.
  - destruct H as [H | H]; [congruence |].
    destruct (IH H) as (t' & Hf & Hname & Hin). exists t'. auto.
Qed.

Lemma file_analyst_registered : In "file_analyst" (map name tools).
Proof. simpl. auto. Qed.

(** *** Router *)

Lemma router_reads_plan (s1 s2 : State) :
  plan s1 = plan s2 -> router s1 = router s2.
Proof. unfold router. now intros ->. Qed.

Lemma router_sentinel (s : State) :
  plan s = VArr [VStr PLAN_COMPLETE] [] -> router s = Ok "responder".
Proof. unfold router. now intros ->. Qed.

Lemma router_single_step (s : State) (step : string) :
  step <> PLAN_COMPLETE -> plan s = VArr [VStr step] [] ->
  router s = Ok "execute_tools".
Proof.
  unfold router. intros Hstep ->. simpl.
  apply String.eqb_neq in Hstep. now rewrite Hstep.
Qed.

Lemma router_targets (s : State) (to : string) :
  router s = Ok to -> to = "responder" \/ to = "execute_tools".
Proof.
  unfold router. destruct (truthy (plan s)); simpl.
  - destruct (includes (plan s) PLAN_COMPLETE) as [[|]|]; [intros [= <-]; auto .. | discriminate].
  - intros [= <-]; auto.
Qed.

(** C1.  An empty plan is an array, and an array is truthy: the router
    takes the branch of a plan that has steps and routes to the tool
    executor. *)
Theorem router_empty_plan_executes
  (query : string) (steps : list (@Step number)) (answer : value)
  (file : option string) :
  router {| input := query; plan := VArr [] []; pastSteps := steps;
            response := answer; filePath := file |} = Ok "execute_tools".
Proof. reflexivity. Qed.

(** *** What remains of a stage once the model has answered *)

Lemma planner_answered (s : State) (content : string) (rest : Eff Update) :
  answered content (planner s) rest ->
  rest = Ret (plan_update match parse_plan content with
                          | Some p => p
                          | None => VArr [VStr PLAN_COMPLETE] []
                          end).
Proof. unfold planner. simpl. inversion 1. reflexivity. Qed.

Lemma executeTools_answered (s : State) (content : string) (rest : Eff Update) :
  answered content (executeTools s) rest ->
  rest = match JSON_parse (extractJson content) with
         | None => Ret (pastSteps_update [invalid_tool_call])
         | Some toolCall => dispatch s toolCall
         end.
Proof.
  unfold executeTools. destruct (last_of (plan s)) as [lastStep|]; simpl.
  - destruct (ToString lastStep); simpl; inversion 1; reflexivity.
  - inversion 1.
Qed.

(** C5, as amended.  When the content of the model's response is not valid
    JSON, the Planner returns the plan made of the completion sentinel and
    the Executor returns one record of the error handler with a fixed
    text; neither throws. *)
Theorem invalid_json_falls_back (s : State) (content : string) :
  JSON_parse (extractJson content) = None ->
  (forall rest, answered content (planner s) rest ->
                rest = Ret (plan_update (VArr [VStr "PLAN_COMPLETE"] []))) /\
  (forall rest, answered content (executeTools s) rest ->
                rest = Ret (pastSteps_update
                              [ {| tool := VStr "error_handler";
                                   tool_output := VStr "Error: The model generated an invalid tool call. Please try again." |} ])).
Proof.
  intros Hparse. split; intros rest Hrest.
  - apply planner_answered in Hrest. unfold parse_plan in Hrest.
    now rewrite Hparse in Hrest.
  - apply executeTools_answered in Hrest. now rewrite Hparse in Hrest.
Qed.

(** *** The Executor on a parsed tool call *)

Lemma inject_filePath_skips (s : State) (toolCall : value) (n : string) :
  get toolCall "tool" = Some (VStr n) ->
  n <> "file_analyst" \/ filePath_set s = None ->
  inject_filePath s toolCall = Ret toolCall.
Proof.
  intros Htool Hskip. unfold inject_filePath. rewrite Htool. simpl.
  destruct Hskip as [Hn | Hfile].
  - apply String.eqb_neq in Hn. now rewrite Hn.
  - rewrite Hfile. now destruct (n =? "file_analyst").
Qed.

Lemma not_found_names_tool (n : string) : Str.occurs n (not_found_message n).
Proof.
  exists "Error: Tool '", "' not found. Please select from the available tools.".
  reflexivity.
Qed.

(** C6.  A tool call that names a tool absent from the registry makes the
    Executor return, without invoking anything and without throwing, one
    record whose output names the missing tool; the record is appended to
    [pastSteps]. *)
Theorem unknown_tool_is_recorded
  (s : State) (content : string) (rest : Eff Update)
  (toolCall : value) (tool_name : string) :
  answered content (executeTools s) rest ->
  JSON_parse (extractJson content) = Some toolCall ->
  get toolCall "tool" = Some (VStr tool_name) ->
  ~ In tool_name (map name tools) ->
  exists record,
    rest = Ret (pastSteps_update [record]) /\
    requested rest = None /\
    tool_output record = VStr (not_found_message tool_name) /\
    Str.occurs tool_name (not_found_message tool_name) /\
    tool record = VStr (if tool_name =? "" then "unknown_tool" else tool_name) /\
    pastSteps (apply_update s (pastSteps_update [record]))
      = (pastSteps s ++ [record])%list.
Proof.
  intros Hrest Hparse Htool Hunknown.
  apply executeTools_answered in Hrest. rewrite Hparse in Hrest.
  assert (Hne : tool_name <> "file_analyst").
  { intros ->. apply Hunknown, file_analyst_registered. }
  unfold dispatch in Hrest.
  rewrite (inject_filePath_skips s toolCall tool_name Htool (or_introl Hne)) in Hrest.
  simpl in Hrest. rewrite Htool in Hrest. simpl in Hrest.
  unfold find_tool in Hrest. rewrite (find_name_None tools tool_name Hunknown) in Hrest.
  simpl in Hrest. subst rest.
  eexists. split; [reflexivity |]. split; [reflexivity |].
  split; [reflexivity |]. split; [apply not_found_names_tool |].
  split; [| reflexivity].
  simpl. now destruct (tool_name =? "").
Qed.

Lemma object_takes_writes (v x : value) (k : string) :
  is_object v = true ->
  exists v', put v k x = Some v' /\ truthy v' = true /\ get v' k = Some x
             /\ forall k', k <> k' -> get v' k' = get v k'.
Proof.
  intros Hobj. destruct v; try discriminate; simpl;
    (eexists; split; [reflexivity |]; split; [reflexivity |]; split;
     [simpl; now rewrite lookup_assign_same
     | intros k' Hk; simpl; now rewrite lookup_assign_other]).
Qed.

(** Lines 246-249 on a call that selects the file analyst while a file is
    attached: the arguments become an object whose [filePath] is the
    attached file. *)
Lemma inject_filePath_injects (s : State) (toolCall ti : value) (fp : string) :
  get toolCall "tool" = Some (VStr "file_analyst") ->
  filePath_set s = Some fp ->
  get toolCall "tool_input" = Some ti ->
  truthy ti = false \/ is_object ti = true ->
  exists toolCall' args,
    inject_filePath s toolCall = Ret toolCall' /\
    get toolCall' "tool" = Some (VStr "file_analyst") /\
    get toolCall' "tool_input" = Some args /\
    truthy args = true /\
    get args "filePath" = Some (VStr fp) /\
    (truthy ti = false -> args = VObj [("filePath", VStr fp)]).
Proof.
  intros Htool Hfile Hti Hshape.
  unfold inject_filePath. rewrite Htool. cbn [must bind strict_eq_string].
  rewrite String.eqb_refl, Hfile, Hti. cbn [must bind].
  assert (Hne : "tool_input" <> "tool") by discriminate.
  destruct (truthy ti) eqn:Htruthy.
  - destruct Hshape as [? | Hobj]; [discriminate |].
    cbn [bind]. rewrite Hti. cbn [must bind].
    destruct (object_takes_writes ti (VStr fp) "filePath" Hobj)
      as (args & Hput & Hargs & Hget & _).
    rewrite Hput. cbn [must bind].
    destruct (put_defined toolCall args "tool" "tool_input" _ Htool) as (tc' & Htc').
    rewrite Htc'. exists tc', args. split; [reflexivity |].
    split; [now rewrite (get_put_other _ _ _ _ "tool" Hne Htc') |].
    split; [exact (get_put_same _ _ _ _ Htc') |].
    repeat split; auto. discriminate.
  - destruct (put_defined toolCall (VObj []) "tool" "tool_input" _ Htool)
      as (tc1 & Htc1).
    rewrite Htc1. cbn [must bind].
    rewrite (get_put_same _ _ _ _ Htc1). cbn [must bind put Props.assign].
    assert (Htool1 : get tc1 "tool" = Some (VStr "file_analyst")).
    { now rewrite (get_put_other _ _ _ _ "tool" Hne Htc1). }
    destruct (put_defined tc1 (VObj [("filePath", VStr fp)]) "tool" "tool_input"
                _ Htool1) as (tc2 & Htc2).
    rewrite Htc2. exists tc2, (VObj [("filePath", VStr fp)]).
    split; [reflexivity |].
    split; [now rewrite (get_put_other _ _ _ _ "tool" Hne Htc2) |].
    split; [exact (get_put_same _ _ _ _ Htc2) |].
    repeat split; auto.
Qed.

(** In module code the assignment of [filePath] to arguments that are a
    string, a number or [true] throws. *)
Lemma inject_filePath_rejects (s : State) (toolCall ti : value) (fp : string) :
  get toolCall "tool" = Some (VStr "file_analyst") ->
  filePath_set s = Some fp ->
  get toolCall "tool_input" = Some ti ->
  truthy ti = true -> is_object ti = false ->
  inject_filePath s toolCall = Throw TypeError.
Proof.
  intros Htool Hfile Hti Htruthy Hprim.
  unfold inject_filePath. rewrite Htool. cbn [must bind strict_eq_string].
  rewrite String.eqb_refl, Hfile, Hti. cbn [must bind].
  rewrite Htruthy. cbn [bind]. rewrite Hti. cbn [must bind].
  destruct ti; try discriminate; reflexivity.
Qed.

(** Lines 251-284 when the tool is found: it is invoked on the arguments
    of the call, or on the query when there are none, and its output makes
    the one record returned. *)
Lemma dispatch_invokes (s : State) (toolCall toolCall' args : value)
  (n : string) (t : Tool) :
  inject_filePath s toolCall = Ret toolCall' ->
  get toolCall' "tool" = Some (VStr n) ->
  find_tool (VStr n) = Some t ->
  get toolCall' "tool_input" = Some args ->
  dispatch s toolCall =
    ToolInvoke t (if truthy args then args else VObj [("query", VStr (input s))])
      (fun raw_tool_output =>
         Ret (pastSteps_update
                [ {| tool := VStr n;
                     tool_output :=
                       if is_object raw_tool_output
                       then VStr (JSON_stringify raw_tool_output)
                       else raw_tool_output |} ])).
Proof.
  intros Hinject Htool Hfind Hargs. unfold dispatch.
  rewrite Hinject. cbn [bind]. rewrite Htool. cbn [must bind].
  rewrite Hfind, Hargs. reflexivity.
Qed.

Lemma registered_tool_found (n : string) :
  In n (map name tools) ->
  exists t, find_tool (VStr n) = Some t /\ name t = n /\ In t tools.
Proof. apply find_name_Some. Qed.

(** C7, as amended.  When a tool call names a registered tool and carries
    no arguments (its [tool_input] is missing, null or otherwise falsy) -
    and, for the file analyst, no file is attached - the Executor invokes
    the tool on the single argument [query], the original query. *)
Theorem absent_arguments_fall_back_to_query
  (s : State) (content : string) (rest : Eff Update)
  (toolCall ti : value) (tool_name : string) :
  answered content (executeTools s) rest ->
  JSON_parse (extractJson content) = Some toolCall ->
  get toolCall "tool" = Some (VStr tool_name) ->
  In tool_name (map name tools) ->
  get toolCall "tool_input" = Some ti ->
  truthy ti = false ->
  (tool_name = "file_analyst" -> filePath_set s = None) ->
  exists t,
    In t tools /\ name t = tool_name /\
    requested rest = Some (t, VObj [("query", VStr (input s))]).
Proof.
  intros Hrest Hparse Htool Hreg Hti Hfalsy Hfile.
  apply executeTools_answered in Hrest. rewrite Hparse in Hrest.
  destruct (registered_tool_found tool_name Hreg) as (t & Hfind & Hname & Hin).
  assert (Hskip : tool_name <> "file_analyst" \/ filePath_set s = None).
  { destruct (string_dec tool_name "file_analyst"); auto. }
  pose proof (inject_filePath_skips s toolCall tool_name Htool Hskip) as Hinject.
  rewrite (dispatch_invokes s toolCall toolCall ti tool_name t
             Hinject Htool Hfind Hti) in Hrest.
  rewrite Hfalsy in Hrest. subst rest. exists t. auto.
Qed.

(** C8.  When a file is attached and the tool call selects the file
    analyst, the arguments of every invocation the Executor makes hold the
    attached file as [filePath], whatever path the call gave.  The
    invocation takes place when the arguments of the call are absent or a
    mapping; arguments that are a string, a number or [true] make the
    assignment of line 248 throw before any invocation. *)
Theorem attached_file_is_injected
  (s : State) (content : string) (rest : Eff Update)
  (toolCall ti : value) (fp : string) :
  answered content (executeTools s) rest ->
  JSON_parse (extractJson content) = Some toolCall ->
  get toolCall "tool" = Some (VStr "file_analyst") ->
  filePath s = Some fp -> fp <> "" ->
  get toolCall "tool_input" = Some ti ->
  (forall t args,
      requested rest = Some (t, args) ->
      name t = "file_analyst" /\ get args "filePath" = Some (VStr fp)) /\
  (truthy ti = false \/ is_object ti = true ->
   exists t args, In t tools /\ requested rest = Some (t, args)) /\
  (truthy ti = true -> is_object ti = false -> rest = Throw TypeError).
Proof.
  intros Hrest Hparse Htool Hfile Hfp Hti.
  apply executeTools_answered in Hrest. rewrite Hparse in Hrest.
  assert (Hset : filePath_set s = Some fp).
  { unfold filePath_set. rewrite Hfile.
    apply String.eqb_neq in Hfp. now rewrite Hfp. }
  assert (Hthrow : truthy ti = true -> is_object ti = false -> rest = Throw TypeError).
  { intros Htruthy Hprim. subst rest. unfold dispatch.
    now rewrite (inject_filePath_rejects s toolCall ti fp Htool Hset Hti Htruthy Hprim). }
  assert (Hcall : truthy ti = false \/ is_object ti = true ->
                  exists t args,
                    In t tools /\ name t = "file_analyst" /\
                    rest = ToolInvoke t args
                             (fun raw_tool_output =>
                                Ret (pastSteps_update
                                       [ {| tool := VStr "file_analyst";
                                            tool_output :=
                                              if is_object raw_tool_output
                                              then VStr (JSON_stringify raw_tool_output)
                                              else raw_tool_output |} ])) /\
                    get args "filePath" = Some (VStr fp)).
  { intros Hshape.
    destruct (inject_filePath_injects s toolCall ti fp Htool Hset Hti Hshape)
      as (tc' & args & Hinject & Htool' & Hargs & Htruthy & Hpath & _).
    destruct (registered_tool_found "file_analyst" file_analyst_registered)
      as (t & Hfind & Hname & Hin).
    rewrite (dispatch_invokes s toolCall tc' args "file_analyst" t
               Hinject Htool' Hfind Hargs) in Hrest.
    rewrite Htruthy in Hrest. exists t, args. auto. }
  split; [| split; [| exact Hthrow]].
  - intros t args Hreq.
    destruct (truthy ti) eqn:Htruthy; [destruct (is_object ti) eqn:Hobj |].
    + destruct (Hcall (or_intror eq_refl)) as (t' & args' & _ & Hname & -> & Hpath).
      simpl in Hreq. injection Hreq as <- <-. auto.
    + rewrite (Hthrow eq_refl eq_refl) in Hreq. discriminate.
    + destruct (Hcall (or_introl eq_refl)) as (t' & args' & _ & Hname & -> & Hpath).
      simpl in Hreq. injection Hreq as <- <-. auto.
  - intros Hshape.
    destruct (Hcall Hshape) as (t & args & Hin & _ & -> & _).
    exists t, args. auto.
Qed.

(** C10.  When a file is attached, the tool call selects the file analyst
    and carries no arguments, the injection has created the arguments
    before the check for missing arguments: the fallback to the query is
    not applied, and the file analyst is invoked on an object holding
    [filePath] alone. *)
Theorem file_analyst_without_arguments_gets_no_query
  (s : State) (content : string) (rest : Eff Update)
  (toolCall ti : value) (fp : string) :
  answered content (executeTools s) rest ->
  JSON_parse (extractJson content) = Some toolCall ->
  get toolCall "tool" = Some (VStr "file_analyst") ->
  filePath s = Some fp -> fp <> "" ->
  get toolCall "tool_input" = Some ti ->
  truthy ti = false ->
  exists t,
    In t tools /\ name t = "file_analyst" /\
    requested rest = Some (t, VObj [("filePath", VStr fp)]) /\
    get (VObj [("filePath", VStr fp)] : value) "query" = Some VUndefined /\
    (VObj [("filePath", VStr fp)] : value) <> VObj [("query", VStr (input s))].
Proof.
  intros Hrest Hparse Htool Hfile Hfp Hti Hfalsy.
  apply executeTools_answered in Hrest. rewrite Hparse in Hrest.
  assert (Hset : filePath_set s = Some fp).
  { unfold filePath_set. rewrite Hfile.
    apply String.eqb_neq in Hfp. now rewrite Hfp. }
  destruct (inject_filePath_injects s toolCall ti fp Htool Hset Hti
              (or_introl Hfalsy))
    as (tc' & args & Hinject & Htool' & Hargs & Htruthy & _ & Honly).
  specialize (Honly Hfalsy). subst args.
  destruct (registered_tool_found "file_analyst" file_analyst_registered)
    as (t & Hfind & Hname & Hin).
  rewrite (dispatch_invokes s toolCall tc' _ "file_analyst" t
             Hinject Htool' Hfind Hargs) in Hrest.
  subst rest. exists t. repeat split; auto. discriminate.
Qed.

(** *** Outcomes of computations *)

Lemma yields_bind_inv {A B : Type} (m : Eff A) (f : A -> Eff B) (o : outcome B) :
  yields (bind m f) o ->
  (exists a, yields m (Returned a) /\ yields (f a) o) \/
  (exists e, o = Raised e /\ yields m (Raised e)).
Proof.
  induction m as [a | e | p k IH | t i k IH]; simpl; intros H.
  - left. exists a. split; [constructor | exact H].
  - inversion H; subst. right. eexists. split; [reflexivity | constructor].
  - inversion H as [ | | p' k' content o' Hk | p' k' msg | | ]; subst.
    + destruct (IH content Hk) as [(a & Ha & Hf) | (e & -> & He)].
      * left. exists a. split; [econstructor; eassumption | assumption].
      * right. eexists. split; [reflexivity | econstructor; eassumption].
    + right. eexists. split; [reflexivity | constructor].
  - inversion H as [ | | | | t' i' k' out o' Hk | t' i' k' msg ]; subst.
    + destruct (IH out Hk) as [(a & Ha & Hf) | (e & -> & He)].
      * left. exists a. split; [econstructor; eassumption | assumption].
      * right. eexists. split; [reflexivity | econstructor; eassumption].
    + right. eexists. split; [reflexivity | constructor].
Qed.

Lemma run_yields {A : Type} (env : Env) (m : Eff A) : yields m (run env m).
Proof.
  induction m as [a | e | p k IH | t i k IH]; simpl.
  - constructor.
  - constructor.
  - destruct (llm env p); [econstructor; apply IH | constructor].
  - destruct (call_tool env t i); [econstructor; apply IH | constructor].
Qed.

Lemma ends_in_ret {A : Type} (R : A -> Prop) (a : A) : R a -> ends_in R (Ret a : Eff A).
Proof. intros H o Ho. inversion Ho; subst. exact H. Qed.

Lemma ends_in_must {A : Type} (R : A -> Prop) (o : option A) :
  (forall a, o = Some a -> R a) -> ends_in R (must o : Eff A).
Proof.
  intros H out Hout. destruct o; simpl in Hout; inversion Hout; subst.
  - now apply H.
  - now left.
Qed.

Lemma ends_in_lift {A : Type} (R : A -> Prop) (r : result A) :
  (forall a, r = Ok a -> R a) -> (forall e, r = Err e -> stage_failure e) ->
  ends_in R (lift r : Eff A).
Proof.
  intros HR HE out Hout. destruct r; simpl in Hout; inversion Hout; subst.
  - now apply HR.
  - now apply HE.
Qed.

Lemma ends_in_llm_invoke (R : string -> Prop) (p : string) :
  (forall content, R content) -> ends_in R (llm_invoke p : Eff string).
Proof.
  intros H o Ho. unfold llm_invoke in Ho.
  inversion Ho as [ | | p' k' content o' Hk | p' k' msg | | ]; subst.
  - inversion Hk; subst. apply H.
  - right. eauto.
Qed.

Lemma ends_in_invoke (R : value -> Prop) (t : Tool) (i : value) :
  (forall out, R out) -> ends_in R (invoke t i).
Proof.
  intros H o Ho. unfold invoke in Ho.
  inversion Ho as [ | | | | t' i' k' out o' Hk | t' i' k' msg ]; subst.
  - inversion Hk; subst. apply H.
  - right. eauto.
Qed.

Lemma ends_in_bind {A B : Type} (R' : A -> Prop) (R : B -> Prop)
  (m : Eff A) (f : A -> Eff B) :
  ends_in R' m -> (forall a, R' a -> ends_in R (f a)) -> ends_in R (bind m f).
Proof.
  intros Hm Hf o Ho.
  apply yields_bind_inv in Ho as [(a & Ha & Hfa) | (e & -> & He)].
  - exact (Hf a (Hm _ Ha) o Hfa).
  - exact (Hm _ He).
Qed.

(** Walks through the binds of a stage whose intermediate results carry no
    obligation. *)
Ltac stage_steps :=
  repeat match goal with
    | |- ends_in _ (bind _ _) =>
        eapply ends_in_bind with (R' := fun _ => True); [ | intros ? _ ]
    | |- ends_in _ (must _) => apply ends_in_must; intros; exact I
    | |- ends_in _ (llm_invoke _) => apply ends_in_llm_invoke; intros; exact I
    | |- ends_in _ (invoke _ _) => apply ends_in_invoke; intros; exact I
    | |- ends_in _ (Ret _) => apply ends_in_ret
    | |- ends_in _ (match ?x with _ => _ end) => destruct x
    end.

(** *** What each stage returns *)

Lemma planner_ends (s : State) :
  ends_in (fun u => exists p, u = plan_update p) (planner s).
Proof. unfold planner. stage_steps. eexists. reflexivity. Qed.

Lemma inject_filePath_ends (s : State) (toolCall : value) :
  ends_in (fun _ => True) (inject_filePath s toolCall).
Proof. unfold inject_filePath. stage_steps; exact I. Qed.

Lemma dispatch_ends (s : State) (toolCall : value) :
  ends_in (fun u => exists record, u = pastSteps_update [record])
    (dispatch s toolCall).
Proof.
  unfold dispatch.
  eapply ends_in_bind; [apply inject_filePath_ends | intros ? _].
  stage_steps; eexists; reflexivity.
Qed.

Lemma executeTools_ends (s : State) :
  ends_in (fun u => exists record, u = pastSteps_update [record])
    (executeTools s).
Proof.
  unfold executeTools.
  eapply ends_in_bind with (R' := fun _ => True); [stage_steps | intros lastStep _].
  eapply ends_in_bind with (R' := fun _ => True); [stage_steps | intros shown _].
  eapply ends_in_bind with (R' := fun _ => True); [stage_steps | intros content _].
  destruct (JSON_parse _);
    [apply dispatch_ends | apply ends_in_ret; eexists; reflexivity].
Qed.

Lemma responder_ends (s : State) :
  ends_in (fun u => exists content, u = response_update (VStr content))
    (responder s).
Proof. unfold responder. stage_steps. eexists. reflexivity. Qed.

Lemma router_failure (s : State) (e : exn) : router s = Err e -> stage_failure e.
Proof.
  unfold router. destruct (truthy (plan s)); simpl; [| discriminate].
  destruct (includes (plan s) PLAN_COMPLETE) as [[|]|]; try discriminate.
  intros [= <-]. now left.
Qed.

(** *** One step of the workflow *)

Lemma superstep_planner (c : Config) :
  next c = "planner" ->
  ends_in (fun c' =>
             (exists p, current c' = apply_update (current c) (plan_update p)) /\
             visited c' = (visited c ++ ["planner"])%list /\
             router (current c') = Ok (next c'))
    (superstep workflow c).
Proof.
  intros Hnext. unfold superstep. rewrite Hnext.
  change (Props.lookup "planner" (nodes workflow)) with (Some (@planner number host)).
  eapply ends_in_bind; [apply planner_ends |]. intros u [p ->].
  change (successor workflow "planner" (apply_update (current c) (plan_update p)))
    with (router (apply_update (current c) (plan_update p))).
  eapply ends_in_bind
    with (R' := fun to => router (apply_update (current c) (plan_update p)) = Ok to).
  - apply ends_in_lift; [auto | apply router_failure].
  - intros to Hto. apply ends_in_ret. simpl. eauto.
Qed.

Lemma superstep_execute_tools (c : Config) :
  next c = "execute_tools" ->
  ends_in (fun c' =>
             (exists record,
                 current c' = apply_update (current c) (pastSteps_update [record])) /\
             visited c' = (visited c ++ ["execute_tools"])%list /\
             next c' = "responder")
    (superstep workflow c).
Proof.
  intros Hnext. unfold superstep. rewrite Hnext.
  change (Props.lookup "execute_tools" (nodes workflow))
    with (Some (@executeTools number host)).
  eapply ends_in_bind; [apply executeTools_ends |]. intros u [record ->].
  apply ends_in_ret. simpl. eauto.
Qed.

Lemma superstep_responder (c : Config) :
  next c = "responder" ->
  ends_in (fun c' =>
             (exists content,
                 current c' = apply_update (current c) (response_update (VStr content))) /\
             visited c' = (visited c ++ ["responder"])%list /\
             next c' = END)
    (superstep workflow c).
Proof.
  intros Hnext. unfold superstep. rewrite Hnext.
  change (Props.lookup "responder" (nodes workflow))
    with (Some (@responder number host)).
  eapply ends_in_bind; [apply responder_ends |]. intros u [content ->].
  apply ends_in_ret. simpl. eauto.
Qed.

(** *** Runs of the workflow *)

Lemma reachable_shape (query : string) (file : option string) (c : Config) :
  reachable workflow (entry_config query file) c -> run_shape query file c.
Proof.
  induction 1 as [| c c' Hreach IH Hnot Hstep].
  - constructor.
  - destruct IH as [ | c Hv Hp Hr | c r Hv Hp Hr Hn | c Hv Hp Hr Hn | c r Hv Hp Hr Hn ].
    + destruct (superstep_planner (entry_config query file) eq_refl _ Hstep)
        as ((p & Hc) & Hv' & Hr').
      apply shape_planned; [now rewrite Hv' | now rewrite Hc | exact Hr'].
    + destruct (router_targets _ _ Hr) as [Hto | Hto].
      * destruct (superstep_responder c Hto _ Hstep) as ((content & Hc) & Hv' & Hn').
        apply shape_answered; [now rewrite Hv', Hv | now rewrite Hc | | exact Hn'].
        rewrite <- Hto, <- Hr. apply router_reads_plan. now rewrite Hc.
      * destruct (superstep_execute_tools c Hto _ Hstep) as ((r & Hc) & Hv' & Hn').
        apply shape_executed with (record := r);
          [now rewrite Hv', Hv | rewrite Hc; simpl; now rewrite Hp | | exact Hn'].
        rewrite <- Hto, <- Hr. apply router_reads_plan. now rewrite Hc.
    + destruct (superstep_responder c Hn _ Hstep) as ((content & Hc) & Hv' & Hn').
      apply shape_answered_after_tool with (record := r);
        [now rewrite Hv', Hv | now rewrite Hc | | exact Hn'].
      rewrite <- Hr. apply router_reads_plan. now rewrite Hc.
    + contradiction.
    + contradiction.
Qed.

Lemma pregel_at_end (g : StateGraph) (limit : nat) (c : Config) :
  next c = END -> pregel_loop g limit c = Ret c.
Proof. intros H. destruct limit; simpl; now rewrite H. Qed.

Lemma pregel_step (g : StateGraph) (limit : nat) (c : Config) :
  next c <> END ->
  pregel_loop g (S limit) c = bind (superstep g c) (pregel_loop g limit).
Proof. intros H. apply String.eqb_neq in H. simpl. now rewrite H. Qed.

Lemma pregel_reachable (g : StateGraph) (limit : nat) (c0 c c' : Config) :
  reachable g c0 c -> yields (pregel_loop g limit c) (Returned c') ->
  reachable g c0 c' /\ next c' = END.
Proof.
  revert c. induction limit as [|limit IH]; intros c Hreach Hrun;
    destruct (String.eqb_spec (next c) END) as [Hend | Hnot].
  - rewrite (pregel_at_end g 0 c Hend) in Hrun. inversion Hrun; subst. auto.
  - simpl in Hrun. apply String.eqb_neq in Hnot. rewrite Hnot in Hrun.
    inversion Hrun.
  - rewrite (pregel_at_end g (S limit) c Hend) in Hrun. inversion Hrun; subst. auto.
  - rewrite (pregel_step g limit c Hnot) in Hrun.
    apply yields_bind_inv in Hrun as [(c1 & Hstep & Hrest) | (e & He & _)];
      [| discriminate].
    apply (IH c1); [| exact Hrest].
    now apply reachable_step with (c := c).
Qed.

Lemma run_graph_workflow (limit : nat) (query : string) (file : option string) :
  run_graph (compile workflow limit) query file
  = pregel_loop workflow limit (entry_config query file).
Proof. reflexivity. Qed.






(** C2.  In every configuration a run reaches, [pastSteps] has as many
    records as the Executor has been invoked; it never has more than one;
    and at the end of a run it has none when the router chose the
    Responder and one when the router chose the Executor. *)
Theorem pastSteps_counts_executor_runs
  (query : string) (file : option string) (c : Config) :
  reachable workflow (entry_config query file) c ->
  length (pastSteps (current c)) = invocations "execute_tools" (visited c) /\
  length (pastSteps (current c)) <= 1 /\
  (next c = END ->
   (router (current c) = Ok "responder" /\
    visited c = ["planner"; "responder"] /\
    length (pastSteps (current c)) = 0)
   \/
   (router (current c) = Ok "execute_tools" /\
    visited c = ["planner"; "execute_tools"; "responder"] /\
    length (pastSteps (current c)) = 1)).
Proof.
  intros Hreach. apply reachable_shape in Hreach.
  destruct Hreach as [ | c Hv Hp Hr | c r Hv Hp Hr Hn | c Hv Hp Hr Hn | c r Hv Hp Hr Hn ].
  - simpl. repeat split; auto. discriminate.
  - rewrite Hv, Hp. repeat split; auto. intros Hend. rewrite Hend in Hr.
    destruct (router_targets _ _ Hr); discriminate.
  - rewrite Hv, Hp. repeat split; auto. rewrite Hn. discriminate.
  - rewrite Hv, Hp. repeat split; auto.
  - rewrite Hv, Hp. repeat split; auto.
Qed.

Lemma answered_resume {A : Type} (content : string) (m : Eff A) :
  waiting m = true -> answered content m (resume content m).
Proof. destruct m; try discriminate. intros _. constructor. Qed.

Lemma run_reachable (env : Env) (limit : nat) (query : string)
  (file : option string) (c : Config) :
  run env (run_graph (compile workflow limit) query file) = Returned c ->
  reachable workflow (entry_config query file) c.
Proof.
  intros Hrun.
  apply (pregel_reachable workflow limit (entry_config query file)
           (entry_config query file) c (reachable_start _ _)).
  rewrite <- run_graph_workflow, <- Hrun. apply run_yields.
Qed.

End Stages.

(** ** The properties at concrete requests *)

Section Instances.

Import MiniHost Examples.

Local Abbreviation value := (value Z).

(** [extractJson] on a fenced reply, on bare JSON, and on an opening fence
    that is never closed. *)
Lemma extractJson_examples :
  extractJson ("Here is the call:" ++ Str.LF ++ fence_open ++ "{}" ++ fence_close
               ++ Str.LF ++ "Done.") = "{}"
  /\ extractJson "{}" = "{}"
  /\ extractJson (fence_open ++ "{}") = fence_open ++ "{}"
  /\ extractJson call_wikipedia
     = object [member "tool" (quoted_text "wikipedia_search");
               member "tool_input"
                 (object [member "query" (quoted_text "Ada Lovelace")])].
Proof. repeat split; reflexivity. Qed.

(** The planned search runs through the three stages. *)
Lemma ada_run :
  run ada_env (run_graph app query None) = Returned ada_final
  /\ visited ada_final = ["planner"; "execute_tools"; "responder"]
  /\ next ada_final = END.
Proof. vm_compute. auto. Qed.

(** With the reply [{ plan: [] }] of the model, the run goes through the
    tool executor. *)
Lemma empty_plan_reaches_the_executor :
  JSON_parse (extractJson empty_plan_reply) = Some (VObj [("plan", VArr [] [])])
  /\ visited (final_config (scripted empty_plan_reply prose_reply) None)
     = ["planner"; "execute_tools"; "responder"].
Proof. vm_compute. auto. Qed.

Lemma pastSteps_counts_executor_runs_witness :
  reachable workflow (entry_config query None) ada_final /\
  length (pastSteps (current ada_final))
  = invocations "execute_tools" (visited ada_final) /\
  length (pastSteps (current ada_final)) <= 1 /\
  (next ada_final = END ->
   (router (current ada_final) = Ok "responder" /\
    visited ada_final = ["planner"; "responder"] /\
    length (pastSteps (current ada_final)) = 0)
   \/
   (router (current ada_final) = Ok "execute_tools" /\
    visited ada_final = ["planner"; "execute_tools"; "responder"] /\
    length (pastSteps (current ada_final)) = 1)).
Proof.
  assert (H : reachable workflow (entry_config query None) ada_final).
  { apply (run_reachable ada_env 50). vm_compute. reflexivity. }
  split; [exact H |].
  exact (pastSteps_counts_executor_runs query None ada_final H).
Defined.

(** A reply in prose is not JSON: both stages fall back. *)
Lemma invalid_json_falls_back_witness :
  JSON_parse (extractJson prose_reply) = None /\
  resume prose_reply (planner (initial_state query None))
  = Ret (plan_update (VArr [VStr "PLAN_COMPLETE"] [])) /\
  resume prose_reply (executeTools (planned None))
  = Ret (pastSteps_update
           [ {| tool := VStr "error_handler";
                tool_output := VStr "Error: The model generated an invalid tool call. Please try again." |} ]).
Proof.
  assert (H : JSON_parse (extractJson prose_reply) = None) by reflexivity.
  split; [exact H |].
  split.
  - apply (proj1 (invalid_json_falls_back (initial_state query None) prose_reply H)).
    apply answered_resume. reflexivity.
  - apply (proj2 (invalid_json_falls_back (planned None) prose_reply H)).
    apply answered_resume. reflexivity.
Defined.

(** C5, as stated, fails on replies that are valid JSON without the
    expected fields.  On [{}] the Planner returns the missing [plan],
    undefined, not the sentinel, and the Executor returns a record of
    "unknown_tool", not of the error handler; on [null] the Executor
    throws. *)
Lemma missing_fields_are_not_parse_failures :
  (JSON_parse (extractJson "{}") = Some (VObj []) /\
   resume "{}" (planner (initial_state query None)) = Ret (plan_update VUndefined) /\
   resume "{}" (planner (initial_state query None))
   <> Ret (plan_update (VArr [VStr "PLAN_COMPLETE"] []))) /\
  (resume "{}" (executeTools (planned None))
   = Ret (pastSteps_update
            [ {| tool := VStr "unknown_tool";
                 tool_output := VStr (not_found_message "undefined") |} ]) /\
   VStr "unknown_tool" <> (VStr "error_handler" : value)) /\
  (JSON_parse (extractJson "null") = Some VNull /\
   resume "null" (executeTools (planned None)) = Throw TypeError).
Proof.
  repeat split; try reflexivity; discriminate.
Qed.

Lemma unknown_tool_is_recorded_witness :
  answered call_unknown (executeTools (planned None))
    (resume call_unknown (executeTools (planned None))) /\
  JSON_parse (extractJson call_unknown) = Some parsed_unknown /\
  get parsed_unknown "tool" = Some (VStr "calculator") /\
  ~ In "calculator" (map name tools) /\
  exists record,
    resume call_unknown (executeTools (planned None))
    = Ret (pastSteps_update [record]) /\
    requested (resume call_unknown (executeTools (planned None))) = None /\
    tool_output record = VStr (not_found_message "calculator") /\
    Str.occurs "calculator" (not_found_message "calculator") /\
    tool record = VStr "calculator" /\
    pastSteps (apply_update (planned None) (pastSteps_update [record]))
    = (pastSteps (planned None) ++ [record])%list.
Proof.
  assert (Hrest : answered call_unknown (executeTools (planned None))
                    (resume call_unknown (executeTools (planned None))))
    by (apply answered_resume; reflexivity).
  assert (Hparse : JSON_parse (extractJson call_unknown) = Some parsed_unknown)
    by reflexivity.
  assert (Htool : get parsed_unknown "tool" = Some (VStr "calculator"))
    by reflexivity.
  assert (Hunknown : ~ In "calculator" (map name tools)).
  { simpl. intuition discriminate. }
  repeat (split; [assumption |]).
  exact (unknown_tool_is_recorded (planned None) call_unknown _ parsed_unknown
           "calculator" Hrest Hparse Htool Hunknown).
Defined.

(** C7, as stated, fails on arguments that are present but incomplete: the
    schema of [wikipedia_search] asks for [query], the call carries an
    empty object, and the tool is invoked on that empty object, not on the
    query. *)
Lemma incomplete_arguments_are_passed_on :
  In "wikipedia_search" (map name tools) /\
  JSON_parse (extractJson call_incomplete)
  = Some (VObj [("tool", VStr "wikipedia_search"); ("tool_input", VObj [])]) /\
  complete wikipedia_search (VObj [] : value) = false /\
  requested (resume call_incomplete (executeTools (planned None)))
  = Some (wikipedia_search, VObj []) /\
  requested (resume call_incomplete (executeTools (planned None)))
  <> Some (wikipedia_search, VObj [("query", VStr (input (planned None)))]).
Proof.
  split; [simpl; auto 10 |]. repeat split; try reflexivity. discriminate.
Qed.

Lemma absent_arguments_fall_back_to_query_witness :
  answered call_without_arguments (executeTools (planned None))
    (resume call_without_arguments (executeTools (planned None))) /\
  JSON_parse (extractJson call_without_arguments) = Some parsed_without_arguments /\
  get parsed_without_arguments "tool" = Some (VStr "wikipedia_search") /\
  In "wikipedia_search" (map name tools) /\
  get parsed_without_arguments "tool_input" = Some VUndefined /\
  truthy (VUndefined : value) = false /\
  ("wikipedia_search" = "file_analyst" -> filePath_set (planned None) = None) /\
  exists t,
    In t tools /\ name t = "wikipedia_search" /\
    requested (resume call_without_arguments (executeTools (planned None)))
    = Some (t, VObj [("query", VStr (input (planned None)))]).
Proof.
  assert (Hrest : answered call_without_arguments (executeTools (planned None))
                    (resume call_without_arguments (executeTools (planned None))))
    by (apply answered_resume; reflexivity).
  assert (Hparse : JSON_parse (extractJson call_without_arguments)
                   = Some parsed_without_arguments) by reflexivity.
  assert (Htool : get parsed_without_arguments "tool"
                  = Some (VStr "wikipedia_search")) by reflexivity.
  assert (Hreg : In "wikipedia_search" (map name tools)) by (simpl; auto 10).
  assert (Hti : get parsed_without_arguments "tool_input" = Some VUndefined)
    by reflexivity.
  assert (Hfalsy : truthy (VUndefined : value) = false) by reflexivity.
  assert (Hfile : "wikipedia_search" = "file_analyst"
                  -> filePath_set (planned None) = None) by discriminate.
  repeat (split; [assumption |]).
  exact (absent_arguments_fall_back_to_query (planned None) call_without_arguments
           _ parsed_without_arguments VUndefined "wikipedia_search"
           Hrest Hparse Htool Hreg Hti Hfalsy Hfile).
Defined.

Lemma attached_file_is_injected_witness :
  answered call_file_guess (executeTools (planned (Some upload)))
    (resume call_file_guess (executeTools (planned (Some upload)))) /\
  JSON_parse (extractJson call_file_guess) = Some parsed_file_guess /\
  get parsed_file_guess "tool" = Some (VStr "file_analyst") /\
  filePath (planned (Some upload)) = Some upload /\
  upload <> "" /\
  get parsed_file_guess "tool_input" = Some guessed_arguments /\
  requested (resume call_file_guess (executeTools (planned (Some upload))))
  = Some (file_analyst,
          VObj [("filePath", VStr upload); ("query", VStr "Summarise the file")]) /\
  name file_analyst = "file_analyst" /\
  get (VObj [("filePath", VStr upload); ("query", VStr "Summarise the file")] : value)
    "filePath" = Some (VStr upload).
Proof.
  assert (Hrest : answered call_file_guess (executeTools (planned (Some upload)))
                    (resume call_file_guess (executeTools (planned (Some upload)))))
    by (apply answered_resume; reflexivity).
  assert (Hparse : JSON_parse (extractJson call_file_guess) = Some parsed_file_guess)
    by reflexivity.
  assert (Htool : get parsed_file_guess "tool" = Some (VStr "file_analyst"))
    by reflexivity.
  assert (Hfile : filePath (planned (Some upload)) = Some upload) by reflexivity.
  assert (Hfp : upload <> "") by discriminate.
  assert (Hti : get parsed_file_guess "tool_input" = Some guessed_arguments)
    by reflexivity.
  assert (Hreq : requested (resume call_file_guess
                              (executeTools (planned (Some upload))))
                 = Some (file_analyst,
                         VObj [("filePath", VStr upload);
                               ("query", VStr "Summarise the file")]))
    by reflexivity.
  repeat (split; [assumption |]).
  exact (proj1 (attached_file_is_injected (planned (Some upload)) call_file_guess
                  _ parsed_file_guess guessed_arguments upload
                  Hrest Hparse Htool Hfile Hfp Hti)
           file_analyst _ Hreq).
Defined.

(** Arguments that are a string: the Executor throws. *)
Lemma text_arguments_make_the_injection_throw :
  JSON_parse (extractJson call_file_text)
  = Some (VObj [("tool", VStr "file_analyst"); ("tool_input", VStr "notes.txt")])
  /\ resume call_file_text (executeTools (planned (Some upload))) = Throw TypeError.
Proof. split; reflexivity. Qed.

Lemma file_analyst_without_arguments_gets_no_query_witness :
  answered call_file_bare (executeTools (planned (Some upload)))
    (resume call_file_bare (executeTools (planned (Some upload)))) /\
  JSON_parse (extractJson call_file_bare) = Some parsed_file_bare /\
  get parsed_file_bare "tool" = Some (VStr "file_analyst") /\
  filePath (planned (Some upload)) = Some upload /\
  upload <> "" /\
  get parsed_file_bare "tool_input" = Some VUndefined /\
  truthy (VUndefined : value) = false /\
  exists t,
    In t tools /\ name t = "file_analyst" /\
    requested (resume call_file_bare (executeTools (planned (Some upload))))
    = Some (t, VObj [("filePath", VStr upload)]) /\
    get (VObj [("filePath", VStr upload)] : value) "query" = Some VUndefined /\
    (VObj [("filePath", VStr upload)] : value)
    <> VObj [("query", VStr (input (planned (Some upload))))].
Proof.
  assert (Hrest : answered call_file_bare (executeTools (planned (Some upload)))
                    (resume call_file_bare (executeTools (planned (Some upload)))))
    by (apply answered_resume; reflexivity).
  assert (Hparse : JSON_parse (extractJson call_file_bare) = Some parsed_file_bare)
    by reflexivity.
  assert (Htool : get parsed_file_bare "tool" = Some (VStr "file_analyst"))
    by reflexivity.
  assert (Hfile : filePath (planned (Some upload)) = Some upload) by reflexivity.
  assert (Hfp : upload <> "") by discriminate.
  assert (Hti : get parsed_file_bare "tool_input" = Some VUndefined) by reflexivity.
  assert (Hfalsy : truthy (VUndefined : value) = false) by reflexivity.
  repeat (split; [assumption |]).
  exact (file_analyst_without_arguments_gets_no_query (planned (Some upload))
           call_file_bare _ parsed_file_bare VUndefined upload
           Hrest Hparse Htool Hfile Hfp Hti Hfalsy).
Defined.

End Instances.

(** * Further properties *)

(** ** extractJson: wrapping and unwrapping *)

Section Unwrapping.

Import StrFacts.

(** An opening fence cannot start inside the text before another one and
    run into it: the fence has no proper prefix that is also its suffix. *)
Lemma fence_open_no_overlap (m r t : string) :
  m <> "" -> String.length m < 8 ->
  fence_open ++ r <> m ++ fence_open ++ t.
Proof.
  intros Hm Hlen H. unfold fence_open, Str.LF in H.
  do 8 (destruct m as [|? m]; [try congruence; simpl in H; discriminate H |];
        simpl in H; injection H as ? H; subst).
  simpl in Hlen. lia.
Qed.

Lemma fence_close_no_overlap (m r t : string) :
  m <> "" -> String.length m < 4 ->
  fence_close ++ r <> m ++ fence_close ++ t.
Proof.
  intros Hm Hlen H. unfold fence_close, Str.LF in H.
  do 4 (destruct m as [|? m]; [try congruence; simpl in H; discriminate H |];
        simpl in H; injection H as ? H; subst).
  simpl in Hlen. lia.
Qed.

(** Two occurrences of a fence in one text, the second one first in a part
    that holds no fence: they are the same occurrence. *)
Lemma same_fence (fence : string) (n : nat) (a b a' b' : string) :
  String.length fence = n ->
  (forall m r t, m <> "" -> String.length m < n -> fence ++ r <> m ++ fence ++ t) ->
  ~ Str.occurs fence a ->
  a' ++ fence ++ b' = a ++ fence ++ b ->
  String.length a' <= String.length a ->
  a' = a /\ b' = b.
Proof.
  intros Hn Hover Hfree Heq Hlen.
  destruct (append_split a' (fence ++ b') a (fence ++ b) Heq Hlen) as (m & -> & Hm).
  destruct m as [|c m].
  - rewrite append_nil_r. split; [reflexivity |].
    change (fence ++ b' = fence ++ b) in Hm.
    now apply append_cancel_l in Hm.
  - exfalso. destruct (Nat.lt_ge_cases (String.length (String c m)) n) as [Hlt | Hge].
    + now apply (Hover (String c m) b' b).
    + rewrite <- Hn in Hge.
      destruct (append_split fence b' (String c m) (fence ++ b) Hm Hge) as (m' & Hcm & _).
      apply Hfree. exists a', m'. now rewrite Hcm.
Qed.

(** X1.  Round trip: a payload that holds no closing fence, wrapped in a
    json fence after a text that holds no opening fence, is what
    [extractJson] returns, whatever follows the block. *)
Theorem extractJson_unwraps (pre payload post : string) :
  ~ Str.occurs fence_open pre ->
  ~ Str.occurs fence_close payload ->
  extractJson (pre ++ fence_open ++ payload ++ fence_close ++ post) = payload.
Proof.
  intros Hpre Hpayload. unfold extractJson.
  destruct (str_match (pre ++ fence_open ++ payload ++ fence_close ++ post))
    as [g|] eqn:E; [| now apply str_match_complete in E].
  destruct (str_match_sound _ g E) as (pre' & post' & Hf & Hleft & Hshort).
  unfold fenced in Hf.
  destruct (same_fence fence_open 8 pre (payload ++ fence_close ++ post)
              pre' (g ++ fence_close ++ post') eq_refl fence_open_no_overlap Hpre)
    as (-> & Hrest).
  - now symmetry.
  - now apply (Hleft pre (payload ++ fence_close ++ post)).
  - destruct (same_fence fence_close 4 payload post g post' eq_refl
                fence_close_no_overlap Hpayload Hrest) as (-> & _).
    + now apply (Hshort payload post).
    + reflexivity.
Qed.

(** X2.  [extractJson] only selects: its result is a part of its argument,
    hence never longer, and a result that differs from the argument holds
    no closing fence. *)
Theorem extractJson_selects (x : string) :
  Str.occurs (extractJson x) x /\
  String.length (extractJson x) <= String.length x /\
  (extractJson x <> x -> ~ Str.occurs fence_close (extractJson x)).
Proof.
  unfold extractJson. destruct (str_match x) as [g|] eqn:E.
  - destruct (str_match_sound x g E) as (pre & post & Hf & _ & Hshort).
    unfold fenced in Hf. split; [| split].
    + exists (pre ++ fence_open), (fence_close ++ post).
      now rewrite append_assoc.
    + rewrite Hf at 1. rewrite !length_append. lia.
    + intros _ (a & b & Hg).
      assert (Hlen : String.length g <= String.length a).
      { apply (Hshort a (b ++ fence_close ++ post)).
        rewrite Hf at 1. rewrite Hg at 1. now rewrite !append_assoc. }
      rewrite Hg in Hlen at 1. rewrite !length_append in Hlen.
      unfold fence_close in Hlen. simpl in Hlen. lia.
  - split; [| split].
    + exists "", "". simpl. now rewrite append_nil_r.
    + lia.
    + congruence.
Qed.

End Unwrapping.

(** ** The run-state along a run *)

Section Discipline.

Context {number : Type} {host : Host number}.

Local Abbreviation value := (value number).
Local Abbreviation Eff := (Eff number).
Local Abbreviation State := (@State number).
Local Abbreviation Update := (@Update number).
Local Abbreviation Config := (@Config number).
Local Abbreviation Step := (@Step number).

Lemma find_tool_string (v : value) (t : Tool) :
  find_tool v = Some t -> exists n, v = VStr n /\ name t = n /\ In t tools.
Proof.
  unfold find_tool. intros H. apply find_some in H as [Hin Heq].
  destruct v; try discriminate. simpl in Heq. apply String.eqb_eq in Heq.
  eauto.
Qed.

Lemma ToString_primitive (v : value) :
  is_object v = false -> exists shown, ToString v = Some shown.
Proof. destruct v; try discriminate; simpl; eauto. Qed.

Lemma normalized_output_printable (n : string) (raw : value) :
  printable {| tool := VStr n;
               tool_output := if is_object raw then VStr (JSON_stringify raw)
                              else raw |}.
Proof.
  split; simpl; [| eauto]. destruct (is_object raw) eqn:E; [reflexivity | exact E].
Qed.

Lemma dispatch_printable (s : State) (toolCall : value) :
  ends_in (fun u => exists record, u = pastSteps_update [record] /\ printable record)
    (dispatch s toolCall).
Proof.
  unfold dispatch.
  eapply ends_in_bind; [apply inject_filePath_ends | intros toolCall' _].
  eapply ends_in_bind with (R' := fun _ => True);
    [apply ends_in_must; auto | intros selected _].
  destruct (find_tool selected) as [t|] eqn:Hfind.
  - destruct (find_tool_string selected t Hfind) as (n & -> & _).
    eapply ends_in_bind with (R' := fun _ => True);
      [apply ends_in_must; auto | intros args _].
    eapply ends_in_bind with (R' := fun _ => True);
      [apply ends_in_invoke; auto | intros raw _].
    apply ends_in_ret. eexists. split; [reflexivity |].
    apply normalized_output_printable.
  - eapply ends_in_bind with (R' := fun shown => ToString selected = Some shown);
      [apply ends_in_must; auto | intros shown Hshown].
    apply ends_in_ret. eexists. split; [reflexivity |].
    split; simpl; [reflexivity |].
    destruct (truthy selected); simpl; eauto.
Qed.

Lemma executeTools_printable (s : State) :
  ends_in (fun u => exists record, u = pastSteps_update [record] /\ printable record)
    (executeTools s).
Proof.
  unfold executeTools.
  eapply ends_in_bind with (R' := fun _ => True);
    [apply ends_in_must; auto | intros lastStep _].
  eapply ends_in_bind with (R' := fun _ => True);
    [apply ends_in_must; auto | intros shown _].
  eapply ends_in_bind with (R' := fun _ => True);
    [apply ends_in_llm_invoke; auto | intros content _].
  destruct (JSON_parse _); [apply dispatch_printable |].
  apply ends_in_ret. eexists. split; [reflexivity |].
  split; simpl; eauto.
Qed.

Lemma superstep_execute_tools_printable (c : Config) :
  next c = "execute_tools" ->
  ends_in (fun c' =>
             exists record,
               printable record /\
               current c' = apply_update (current c) (pastSteps_update [record]))
    (superstep workflow c).
Proof.
  intros Hnext. unfold superstep. rewrite Hnext.
  change (Props.lookup "execute_tools" (nodes workflow))
    with (Some (@executeTools number host)).
  eapply ends_in_bind; [apply executeTools_printable |].
  intros u (record & -> & Hrecord).
  apply ends_in_ret. simpl. eauto.
Qed.

Lemma reachable_disciplined (query : string) (file : option string) (c : Config) :
  reachable workflow (entry_config query file) c -> disciplined query file c.
Proof.
  induction 1 as [| c c' Hreach IH Hnot Hstep].
  - repeat split; simpl; auto; contradiction.
  - destruct IH as (Hin & Hfile & Hans & Hnone & Hrec).
    pose proof (reachable_shape query file c Hreach) as Hshape.
    assert (Hcases : (next c = "planner" /\ visited c = [])
                     \/ (next c = "execute_tools" /\ visited c = ["planner"])
                     \/ (next c = "responder" /\ ~ In "responder" (visited c))).
    { destruct Hshape as [ | c Hv Hp Hr | c r Hv Hp Hr Hn | c Hv Hp Hr Hn | c r Hv Hp Hr Hn ].
      - left. split; reflexivity.
      - destruct (router_targets _ _ Hr) as [Hto | Hto]; [right; right | right; left].
        + split; [exact Hto |]. rewrite Hv. simpl. intuition discriminate.
        + split; [exact Hto | exact Hv].
      - right; right. split; [exact Hn |]. rewrite Hv. simpl. intuition discriminate.
      - contradiction.
      - contradiction. }
    destruct Hcases as [[Hn Hv] | [[Hn Hv] | [Hn Hv]]].
    + destruct (superstep_planner c Hn _ Hstep) as ((p & Hc) & Hv' & _).
      unfold disciplined. rewrite Hc, Hv', Hv. simpl.
      repeat split; auto.
      * intros [H | []]; discriminate.
      * intros _. apply Hnone. rewrite Hv. intros [].
    + destruct (superstep_execute_tools_printable c Hn _ Hstep)
        as (record & Hrecord & Hc).
      destruct (superstep_execute_tools c Hn _ Hstep) as (_ & Hv' & _).
      unfold disciplined. rewrite Hc, Hv', Hv. simpl.
      repeat split; auto.
      * intros [H | [H | []]]; discriminate.
      * intros _. apply Hnone. rewrite Hv. simpl. intuition discriminate.
      * unfold pastSteps_reducer. apply Forall_app. split; [exact Hrec | auto].
    + destruct (superstep_responder c Hn _ Hstep) as ((content & Hc) & Hv' & _).
      unfold disciplined. rewrite Hc, Hv'. simpl.
      repeat split; auto.
      * intros _. eauto.
      * intros Hno. exfalso. apply Hno. apply in_or_app. right. now left.
Qed.

End Discipline.

(** ** Substrings *)

Module OccursFacts.

Import StrFacts.

Lemma occurs_refl (s : string) : Str.occurs s s.
Proof. exists "", "". simpl. now rewrite append_nil_r. Qed.

Lemma occurs_trans (a b c : string) :
  Str.occurs a b -> Str.occurs b c -> Str.occurs a c.
Proof.
  intros (x & y & ->) (x' & y' & ->).
  exists (x' ++ x), (y ++ y'). now rewrite !append_assoc.
Qed.

Lemma occurs_append_l (a b c : string) : Str.occurs a b -> Str.occurs a (c ++ b).
Proof.
  intros (x & y & ->). exists (c ++ x), y. now rewrite append_assoc.
Qed.

Lemma occurs_append_r (a b c : string) : Str.occurs a b -> Str.occurs a (b ++ c).
Proof.
  intros (x & y & ->). exists x, (y ++ c). now rewrite !append_assoc.
Qed.

Lemma occurs_join (sep x : string) (l : list string) :
  In x l -> Str.occurs x (Str.join sep l).
Proof.
  induction l as [|y l IH]; [contradiction |].
  intros [-> | Hin].
  - destruct l; simpl; [apply occurs_refl | apply occurs_append_r, occurs_refl].
  - destruct l as [|z l]; [contradiction |].
    change (Str.join sep (y :: z :: l)) with (y ++ sep ++ Str.join sep (z :: l)).
    now apply occurs_append_l, occurs_append_l, IH.
Qed.

End OccursFacts.

(** ** The stages along a run *)

Section Runs.

Context {number : Type} {host : Host number}.

Import OccursFacts.

Local Abbreviation value := (value number).
Local Abbreviation Eff := (Eff number).
Local Abbreviation State := (@State number).
Local Abbreviation Update := (@Update number).
Local Abbreviation Config := (@Config number).
Local Abbreviation Step := (@Step number).
Local Abbreviation Env := (Env number).

(** X3.  The request is never rewritten and the answer has one writer: in
    every configuration of a run, [input] and [filePath] are those of the
    request, and [response] is the text the model gave the Responder once
    the Responder has run, and is unset before. *)
Theorem run_state_discipline (query : string) (file : option string) (c : Config) :
  reachable workflow (entry_config query file) c ->
  input (current c) = query /\
  filePath (current c) = file /\
  (In "responder" (visited c) ->
   exists answer, response (current c) = VStr answer) /\
  (~ In "responder" (visited c) -> response (current c) = VUndefined).
Proof.
  intros Hreach.
  destruct (reachable_disciplined query file c Hreach) as (H1 & H2 & H3 & H4 & _).
  auto.
Qed.

(** X4.  No record of [pastSteps] holds an object as output: what a tool
    returns is serialized when it is an object or an array and kept as it
    is otherwise (a text, but also a number, a boolean, null or undefined),
    and the tool of a record always converts to a string. *)
Theorem records_hold_no_object (query : string) (file : option string) (c : Config) :
  reachable workflow (entry_config query file) c ->
  Forall (fun record =>
            is_object (tool_output record) = false /\
            exists shown, ToString (tool record) = Some shown)
    (pastSteps (current c)).
Proof.
  intros Hreach.
  now destruct (reachable_disciplined query file c Hreach) as (_ & _ & _ & _ & H).
Qed.

Lemma show_steps_printable (l : list Step) :
  Forall printable l ->
  exists lines,
    show_steps l = Some lines /\
    forall record, In record l ->
                   exists line, show_step record = Some line /\ In line lines.
Proof.
  induction 1 as [| r l (Hout & shown & Htool) Hl (lines & Hlines & Hall)].
  - exists []. split; [reflexivity | contradiction].
  - destruct (ToString_primitive (tool_output r) Hout) as (out & Hshow).
    assert (Hr : show_step r
                 = Some ("Step: Executed '" ++ shown ++ "'" ++ Str.LF ++ "Result: " ++ out)).
    { unfold show_step. now rewrite Htool, Hshow. }
    eexists. split; [simpl; rewrite Hr, Hlines; reflexivity |].
    intros record [<- | Hin].
    + eexists. split; [exact Hr | now left].
    + destruct (Hall record Hin) as (line & Hline & Hlin).
      exists line. split; [exact Hline | now right].
Qed.

Lemma responderPrompt_holds (query gathered : string) :
  Str.occurs query (responderPrompt query gathered)
  /\ Str.occurs gathered (responderPrompt query gathered).
Proof.
  unfold responderPrompt, text. split.
  - eapply occurs_trans; [| apply occurs_join; right; left; reflexivity].
    apply occurs_append_l, occurs_refl.
  - eapply occurs_trans; [| apply occurs_join; do 3 right; left; reflexivity].
    apply occurs_append_l, occurs_refl.
Qed.

(** X5.  The Responder's own code never throws during a run: it always
    reaches its model call, with a prompt that holds the query and the
    line of every record of [pastSteps], and returns whatever text the
    model answers as the response. *)
Theorem responder_reaches_the_model (query : string) (file : option string) (c : Config) :
  reachable workflow (entry_config query file) c ->
  exists sent,
    asked (responder (current c)) = Some sent /\
    Str.occurs query sent /\
    (forall record, In record (pastSteps (current c)) ->
                    exists line, show_step record = Some line /\ Str.occurs line sent) /\
    (forall content,
        resume content (responder (current c))
        = Ret (response_update (VStr content))).
Proof.
  intros Hreach.
  destruct (reachable_disciplined query file c Hreach) as (Hin & _ & _ & _ & Hrec).
  destruct (show_steps_printable _ Hrec) as (lines & Hlines & Hall).
  unfold responder. rewrite Hlines, Hin. simpl.
  eexists. split; [reflexivity |].
  destruct (responderPrompt_holds query (Str.join step_separator lines)) as [Hq Hg].
  split; [exact Hq |]. split; [| reflexivity].
  intros record Hrecord. destruct (Hall record Hrecord) as (line & Hline & Hlin).
  exists line. split; [exact Hline |].
  eapply occurs_trans; [| exact Hg]. now apply occurs_join.
Qed.

End Runs.

(** ** Runs in an environment *)

Section Environments.

Context {number : Type} {host : Host number}.

Local Abbreviation value := (value number).
Local Abbreviation Eff := (Eff number).
Local Abbreviation State := (@State number).
Local Abbreviation Update := (@Update number).
Local Abbreviation Config := (@Config number).
Local Abbreviation Env := (Env number).

Lemma run_bind {A B : Type} (env : Env) (m : Eff A) (f : A -> Eff B) :
  run env (bind m f)
  = match run env m with
    | Returned a => run env (f a)
    | Raised e => Raised e
    end.
Proof.
  induction m as [a | e | p k IH | t i k IH]; simpl; auto.
  - destruct (llm env p); auto.
  - destruct (call_tool env t i); auto.
Qed.

Lemma run_pregel_step (env : Env) (limit : nat) (c : Config) :
  next c <> END ->
  run env (pregel_loop workflow (S limit) c)
  = match run env (superstep workflow c) with
    | Returned c' => run env (pregel_loop workflow limit c')
    | Raised e => Raised e
    end.
Proof. intros H. now rewrite (pregel_step workflow limit c H), run_bind. Qed.

Lemma run_superstep_planner (env : Env) (c : Config) (content : string) :
  next c = "planner" ->
  llm env (planPrompt (input (current c))) = Answer content ->
  run env (superstep workflow c)
  = let s := apply_update (current c)
               (plan_update match parse_plan content with
                            | Some p => p
                            | None => VArr [VStr PLAN_COMPLETE] []
                            end) in
    match router s with
    | Ok to => Returned {| next := to; current := s;
                           visited := (visited c ++ ["planner"])%list |}
    | Err e => Raised e
    end.
Proof.
  intros Hnext Hllm. unfold superstep. rewrite Hnext.
  change (Props.lookup "planner" (nodes workflow)) with (Some (@planner number host)).
  cbv beta iota. rewrite run_bind. unfold planner at 1. simpl. rewrite Hllm. simpl.
  rewrite run_bind.
  change (successor workflow "planner" ?s) with (router s).
  destruct (router _); reflexivity.
Qed.

Lemma run_superstep_responder (env : Env) (c : Config) (shown : list string) :
  next c = "responder" ->
  show_steps (pastSteps (current c)) = Some shown ->
  run env (superstep workflow c)
  = match llm env (responderPrompt (input (current c))
                     (Str.join step_separator shown)) with
    | Answer content =>
        Returned {| next := END;
                    current := apply_update (current c)
                                 (response_update (VStr content));
                    visited := (visited c ++ ["responder"])%list |}
    | Reject msg => Raised (External msg)
    end.
Proof.
  intros Hnext Hshown. unfold superstep. rewrite Hnext.
  change (Props.lookup "responder" (nodes workflow))
    with (Some (@responder number host)).
  cbv beta iota. rewrite run_bind. unfold responder at 1. rewrite Hshown. simpl.
  destruct (llm env _); reflexivity.
Qed.

Lemma run_superstep_execute_tools (env : Env) (c : Config)
  (lastStep : value) (shown content : string) :
  next c = "execute_tools" ->
  last_of (plan (current c)) = Some lastStep ->
  ToString lastStep = Some shown ->
  llm env (toolCallPrompt shown (input (current c))) = Answer content ->
  JSON_parse (extractJson content) = None ->
  run env (superstep workflow c)
  = Returned {| next := "responder";
                current := apply_update (current c)
                             (pastSteps_update [invalid_tool_call]);
                visited := (visited c ++ ["execute_tools"])%list |}.
Proof.
  intros Hnext Hlast Hshown Hllm Hparse. unfold superstep. rewrite Hnext.
  change (Props.lookup "execute_tools" (nodes workflow))
    with (Some (@executeTools number host)).
  cbv beta iota. rewrite run_bind. unfold executeTools at 1. rewrite Hlast. simpl.
  rewrite Hshown. simpl. rewrite Hllm, Hparse. reflexivity.
Qed.

(** The end of a run from the Responder on. *)
Lemma run_from_responder (env : Env) (limit : nat) (c : Config) (shown : list string) :
  next c = "responder" ->
  show_steps (pastSteps (current c)) = Some shown ->
  run env (pregel_loop workflow (S limit) c)
  = match llm env (responderPrompt (input (current c))
                     (Str.join step_separator shown)) with
    | Answer content =>
        Returned {| next := END;
                    current := apply_update (current c)
                                 (response_update (VStr content));
                    visited := (visited c ++ ["responder"])%list |}
    | Reject msg => Raised (External msg)
    end.
Proof.
  intros Hnext Hshown.
  rewrite run_pregel_step by (rewrite Hnext; discriminate).
  rewrite (run_superstep_responder env c shown Hnext Hshown).
  destruct (llm env _); [| reflexivity].
  now rewrite pregel_at_end.
Qed.

(** X6.  A plan that cannot be parsed costs no tool call: when the content
    the model gives the Planner is not valid JSON, the run goes from the
    Planner straight to the Responder, which is asked with an empty
    history; the run returns the Responder's text, or fails only if the
    Responder's model call is rejected. *)
Theorem unparseable_plan_skips_the_executor
  (env : Env) (limit : nat) (query : string) (file : option string)
  (content : string) :
  2 <= limit ->
  llm env (planPrompt query) = Answer content ->
  JSON_parse (extractJson content) = None ->
  match run env (run_graph (compile workflow limit) query file) with
  | Returned c =>
      visited c = ["planner"; "responder"] /\
      plan (current c) = VArr [VStr "PLAN_COMPLETE"] [] /\
      pastSteps (current c) = [] /\
      llm env (responderPrompt query "") = Answer
        match response (current c) with VStr answer => answer | _ => "" end /\
      exists answer, response (current c) = VStr answer
  | Raised e =>
      exists msg, e = External msg /\
                  llm env (responderPrompt query "") = Reject msg
  end.
Proof.
  intros Hlimit Hllm Hparse.
  destruct limit as [|[|limit]]; try lia.
  rewrite run_graph_workflow.
  rewrite run_pregel_step by discriminate.
  rewrite (run_superstep_planner env (entry_config query file) content eq_refl Hllm).
  unfold parse_plan. rewrite Hparse.
  cbn [router plan apply_update plan_update last_value new_plan truthy negb
       includes existsb strict_eq_string PLAN_COMPLETE].
  rewrite String.eqb_refl. cbn [orb].
  cbv zeta.
  erewrite run_from_responder with (shown := []); [ | reflexivity | reflexivity ].
  cbn [input current apply_update initial_state Str.join].
  change (input (current (entry_config query file))) with query.
  destruct (llm env (responderPrompt query "")) as [answer | msg] eqn:Hanswer;
    rewrite ?Hanswer.
  - simpl. repeat split; eauto.
  - eauto.
Qed.

(** X7.  A tool call that cannot be parsed still ends the run in the
    Responder: when the model gives a one-step plan and then a content
    that is not valid JSON, the run visits the three stages, its history
    is the one record of the error handler, and the Responder is asked to
    explain that record; the run fails only if that last model call is
    rejected. *)
Theorem unparseable_tool_call_is_explained
  (env : Env) (limit : nat) (query : string) (file : option string)
  (planned called step : string) :
  3 <= limit ->
  llm env (planPrompt query) = Answer planned ->
  parse_plan planned = Some (VArr [VStr step] []) ->
  step <> "PLAN_COMPLETE" ->
  llm env (toolCallPrompt step query) = Answer called ->
  JSON_parse (extractJson called) = None ->
  let explained :=
    responderPrompt query
      ("Step: Executed 'error_handler'" ++ Str.LF
       ++ "Result: Error: The model generated an invalid tool call. Please try again.") in
  match run env (run_graph (compile workflow limit) query file) with
  | Returned c =>
      visited c = ["planner"; "execute_tools"; "responder"] /\
      pastSteps (current c) = [invalid_tool_call] /\
      exists answer,
        response (current c) = VStr answer /\ llm env explained = Answer answer
  | Raised e => exists msg, e = External msg /\ llm env explained = Reject msg
  end.
Proof.
  intros Hlimit Hplanned Hplan Hstep Hcalled Hparse explained.
  destruct limit as [|[|[|limit]]]; try lia.
  rewrite run_graph_workflow.
  rewrite run_pregel_step by discriminate.
  rewrite (run_superstep_planner env (entry_config query file) planned eq_refl Hplanned).
  rewrite Hplan. cbv zeta.
  erewrite router_single_step; [ | exact Hstep | reflexivity ].
  rewrite run_pregel_step by discriminate.
  erewrite run_superstep_execute_tools;
    [ | reflexivity | reflexivity | reflexivity | exact Hcalled | exact Hparse ].
  erewrite run_from_responder; [ | reflexivity | reflexivity ].
  change (llm env (responderPrompt _ _)) with (llm env explained).
  destruct (llm env explained) as [answer | msg].
  - simpl. repeat split; eauto.
  - eauto.
Qed.

End Environments.

(** ** Runs that complete *)

Section Completion.

Context {number : Type} {host : Host number}.

Local Abbreviation value := (value number).
Local Abbreviation Eff := (Eff number).
Local Abbreviation State := (@State number).
Local Abbreviation Update := (@Update number).
Local Abbreviation Config := (@Config number).
Local Abbreviation Env := (Env number).









End Completion.

(** ** More on the router and the Executor *)

Section Decisions.

Context {number : Type} {host : Host number}.

Local Abbreviation value := (value number).
Local Abbreviation Eff := (Eff number).
Local Abbreviation State := (@State number).
Local Abbreviation Update := (@Update number).

Lemma sentinel_among (elems : list value) :
  existsb (fun e => strict_eq_string e PLAN_COMPLETE) elems = true
  <-> In (VStr PLAN_COMPLETE) elems.
Proof.
  rewrite existsb_exists. split.
  - intros (x & Hin & Hx). destruct x; try discriminate.
    simpl in Hx. apply String.eqb_eq in Hx. now subst.
  - intros Hin. exists (VStr PLAN_COMPLETE). split; [exact Hin |].
    reflexivity.
Qed.

Ltac plan_shapes :=
  repeat match goal with
    | H : _ /\ _ |- _ => destruct H
    | H : _ \/ _ |- _ => destruct H
    | H : exists _, _ |- _ => destruct H
    | H : VArr _ _ = VArr _ _ |- _ => injection H as ? ?; subst
    | H : VStr _ = VStr _ |- _ => injection H as ?; subst
    end;
  try discriminate; try contradiction; try congruence; try reflexivity.

Ltac router_case :=
  split; [ intros H; try discriminate H; eauto 10 | intros H; plan_shapes ].

Ltac router_cases := split; [ router_case | split; router_case ].

(** X8.  The three decisions of the router.  It routes to the Responder
    when the plan is falsy (missing, null, an empty string, ...), is an
    array with the sentinel among its elements, whatever the other steps,
    or is a string in which the sentinel occurs; it throws a TypeError when
    the plan is a non-zero number, [true] or an object; and it routes to
    the Executor otherwise, the empty array included. *)
Theorem router_decisions (s : State) :
  (router s = Ok "responder" <->
   truthy (plan s) = false
   \/ (exists elems own, plan s = VArr elems own /\ In (VStr "PLAN_COMPLETE") elems)
   \/ (exists t, plan s = VStr t /\ Str.occurs "PLAN_COMPLETE" t)) /\
  (router s = Err TypeError <->
   truthy (plan s) = true /\
   ((exists n, plan s = VNum n) \/ plan s = VBool true
    \/ exists fields, plan s = VObj fields)) /\
  (router s = Ok "execute_tools" <->
   (exists elems own, plan s = VArr elems own /\ ~ In (VStr "PLAN_COMPLETE") elems)
   \/ (exists t, plan s = VStr t /\ t <> "" /\ ~ Str.occurs "PLAN_COMPLETE" t)).
Proof.
  unfold router.
  destruct (plan s) as [ | | b | n | t | elems own | fields ]; simpl.
  - router_cases.
  - router_cases.
  - destruct b; simpl; router_cases.
  - destruct (number_truthy n) eqn:Hn; simpl; router_cases.
  - destruct (String.eqb_spec t "") as [-> | Ht]; simpl; [router_cases |].
    destruct (Str.includes PLAN_COMPLETE t) eqn:Hinc.
    + apply StrFacts.includes_occurs in Hinc. router_cases.
    + assert (Hno : ~ Str.occurs PLAN_COMPLETE t).
      { intros H. apply StrFacts.includes_occurs in H. congruence. }
      router_cases.
  - destruct (existsb (fun e => strict_eq_string e PLAN_COMPLETE) elems) eqn:Hex.
    + apply sentinel_among in Hex. router_cases.
    + assert (Hno : ~ In (VStr PLAN_COMPLETE) elems).
      { intros H. apply sentinel_among in H. congruence. }
      router_cases.
  - router_cases.
Qed.

End Decisions.

Section Calls.

Context {number : Type} {host : Host number}.

Local Abbreviation value := (value number).
Local Abbreviation Eff := (Eff number).
Local Abbreviation State := (@State number).
Local Abbreviation Update := (@Update number).

(** X9.  Arguments that are present reach the tool as the model wrote
    them, complete or not: for a registered tool other than the file
    analyst with an attached file, a truthy [tool_input] is the argument
    of the invocation, and the output of the tool, serialized when it is
    an object, makes the one record returned under the name of the
    tool. *)
Theorem present_arguments_are_passed_unchanged
  (s : State) (content : string) (rest : Eff Update)
  (toolCall ti : value) (tool_name : string) :
  answered content (executeTools s) rest ->
  JSON_parse (extractJson content) = Some toolCall ->
  get toolCall "tool" = Some (VStr tool_name) ->
  In tool_name (map name tools) ->
  get toolCall "tool_input" = Some ti ->
  truthy ti = true ->
  (tool_name = "file_analyst" -> filePath_set s = None) ->
  exists t,
    In t tools /\ name t = tool_name /\
    rest = ToolInvoke t ti
             (fun raw_tool_output =>
                Ret (pastSteps_update
                       [ {| tool := VStr tool_name;
                            tool_output :=
                              if is_object raw_tool_output
                              then VStr (JSON_stringify raw_tool_output)
                              else raw_tool_output |} ])).
Proof.
  intros Hrest Hparse Htool Hreg Hti Htruthy Hfile.
  apply executeTools_answered in Hrest. rewrite Hparse in Hrest.
  destruct (registered_tool_found tool_name Hreg) as (t & Hfind & Hname & Hin).
  assert (Hskip : tool_name <> "file_analyst" \/ filePath_set s = None).
  { destruct (string_dec tool_name "file_analyst"); auto. }
  pose proof (inject_filePath_skips s toolCall tool_name Htool Hskip) as Hinject.
  rewrite (dispatch_invokes s toolCall toolCall ti tool_name t
             Hinject Htool Hfind Hti) in Hrest.
  rewrite Htruthy in Hrest. exists t. auto.
Qed.

(** X10.  The injection of the attached file changes [filePath] and nothing
    else: when the call selects the file analyst with an object as
    arguments, the invocation gets that object with [filePath] replaced
    (or added), every other field as the model wrote it. *)
Theorem injection_keeps_the_other_arguments
  (s : State) (content : string) (rest : Eff Update)
  (toolCall : value) (fields : list (string * value)) (fp : string) :
  answered content (executeTools s) rest ->
  JSON_parse (extractJson content) = Some toolCall ->
  get toolCall "tool" = Some (VStr "file_analyst") ->
  filePath s = Some fp -> fp <> "" ->
  get toolCall "tool_input" = Some (VObj fields) ->
  exists t args,
    In t tools /\ name t = "file_analyst" /\
    requested rest = Some (t, args) /\
    args = VObj (Props.assign "filePath" (VStr fp) fields) /\
    get args "filePath" = Some (VStr fp) /\
    forall key, key <> "filePath" -> get args key = get (VObj fields) key.
Proof.
  intros Hrest Hparse Htool Hfile Hfp Hti.
  apply executeTools_answered in Hrest. rewrite Hparse in Hrest.
  assert (Hset : filePath_set s = Some fp).
  { unfold filePath_set. rewrite Hfile.
    apply String.eqb_neq in Hfp. now rewrite Hfp. }
  set (args := VObj (Props.assign "filePath" (VStr fp) fields) : value).
  destruct (put_defined toolCall args "tool" "tool_input" _ Htool) as (tc' & Htc').
  assert (Hinject : inject_filePath s toolCall = Ret tc').
  { unfold inject_filePath. rewrite Htool. cbn [must bind strict_eq_string].
    rewrite String.eqb_refl, Hset, Hti. cbn [must bind truthy].
    rewrite Hti. cbn [must bind put]. fold args. now rewrite Htc'. }
  assert (Hne : "tool_input" <> "tool") by discriminate.
  destruct (registered_tool_found "file_analyst" file_analyst_registered)
    as (t & Hfind & Hname & Hin).
  rewrite (dispatch_invokes s toolCall tc' args "file_analyst" t Hinject
             (eq_trans (get_put_other _ _ _ _ "tool" Hne Htc') Htool) Hfind
             (get_put_same _ _ _ _ Htc')) in Hrest.
  subst rest. exists t, args. repeat split; auto.
  - simpl. now rewrite lookup_assign_same.
  - intros key Hkey. simpl. now rewrite lookup_assign_other.
Qed.

Lemma get_defined (v x : value) (k k' : string) :
  get v k = Some x -> exists y, get v k' = Some y.
Proof. destruct v; simpl; intros H; try discriminate; eauto. Qed.

Lemma inject_filePath_skips_any (s : State) (toolCall selected : value) :
  get toolCall "tool" = Some selected ->
  strict_eq_string selected "file_analyst" = false \/ filePath_set s = None ->
  inject_filePath s toolCall = Ret toolCall.
Proof.
  intros Htool Hskip. unfold inject_filePath. rewrite Htool. cbn [must bind].
  destruct Hskip as [-> | ->]; [reflexivity |].
  now destruct (strict_eq_string selected "file_analyst").
Qed.

(** X11.  When the Executor throws on a parsed tool call.  Past the [try]
    block, the Executor throws a TypeError in exactly three cases: the
    call is [null] (it has no [tool] to read); the file analyst is selected
    with an attached file and arguments that are a string, a number or
    [true]; the [tool] is found in no registry entry and cannot be printed
    in the error text.  In every other case it returns a record or invokes
    a tool. *)
Theorem executor_throws_exactly
  (s : State) (content : string) (rest : Eff Update) (toolCall : value) :
  answered content (executeTools s) rest ->
  JSON_parse (extractJson content) = Some toolCall ->
  (rest = Throw TypeError <->
   get toolCall "tool" = None
   \/ (exists fp ti,
          get toolCall "tool" = Some (VStr "file_analyst") /\
          filePath_set s = Some fp /\
          get toolCall "tool_input" = Some ti /\
          truthy ti = true /\ is_object ti = false)
   \/ (exists selected,
          get toolCall "tool" = Some selected /\
          find_tool selected = None /\ ToString selected = None)) /\
  ((exists record, rest = Ret (pastSteps_update [record]))
   \/ (exists t args, In t tools /\ requested rest = Some (t, args))
   \/ rest = Throw TypeError).
Proof.
  intros Hrest Hparse.
  apply executeTools_answered in Hrest. rewrite Hparse in Hrest. subst rest.
  destruct (get toolCall "tool") as [selected|] eqn:Htool.
  2: { assert (H : dispatch s toolCall = Throw TypeError).
       { unfold dispatch, inject_filePath. now rewrite Htool. }
       rewrite H. split; [split; auto | auto]. }
  destruct (get_defined toolCall selected "tool" "tool_input" Htool) as (ti & Hti).
  assert (Hfa : find_tool (VStr "file_analyst") <> None).
  { destruct (registered_tool_found "file_analyst" file_analyst_registered)
      as (t & -> & _). discriminate. }
  destruct (strict_eq_string selected "file_analyst") eqn:Hsel;
    [destruct (filePath_set s) as [fp|] eqn:Hfile |].
  - (* the file analyst, with a file *)
    destruct selected; try discriminate. simpl in Hsel.
    apply String.eqb_eq in Hsel. subst.
    destruct (truthy ti) eqn:Htruthy; [destruct (is_object ti) eqn:Hobj |].
    + destruct (inject_filePath_injects s toolCall ti fp Htool Hfile Hti
                  (or_intror Hobj))
        as (tc' & args & Hinject & Htool' & Hargs & _).
      destruct (registered_tool_found "file_analyst" file_analyst_registered)
        as (t & Hfind & Hname & Hin).
      rewrite (dispatch_invokes s toolCall tc' args "file_analyst" t
                 Hinject Htool' Hfind Hargs).
      split; [split; [discriminate |] | right; left; exists t; eexists; split; [exact Hin | reflexivity]].
      intros [H | [(fp' & ti' & _ & _ & Hti' & _ & Hno) | (sel & [= <-] & Hnone & _)]];
        [discriminate | | contradiction].
      rewrite Hti in Hti'. injection Hti' as <-. congruence.
    + assert (H : dispatch s toolCall = Throw TypeError).
      { unfold dispatch.
        now rewrite (inject_filePath_rejects s toolCall ti fp Htool Hfile Hti
                       Htruthy Hobj). }
      rewrite H. split; [split; [intros _ | reflexivity] | auto].
      right. left. exists fp, ti. auto.
    + destruct (inject_filePath_injects s toolCall ti fp Htool Hfile Hti
                  (or_introl Htruthy))
        as (tc' & args & Hinject & Htool' & Hargs & _).
      destruct (registered_tool_found "file_analyst" file_analyst_registered)
        as (t & Hfind & Hname & Hin).
      rewrite (dispatch_invokes s toolCall tc' args "file_analyst" t
                 Hinject Htool' Hfind Hargs).
      split; [split; [discriminate |] | right; left; exists t; eexists; split; [exact Hin | reflexivity]].
      intros [H | [(fp' & ti' & _ & _ & Hti' & Hyes & _) | (sel & [= <-] & Hnone & _)]];
        [discriminate | | contradiction].
      rewrite Hti in Hti'. injection Hti' as <-. congruence.
  - (* the file analyst, without a file *)
    destruct selected; try discriminate. simpl in Hsel.
    apply String.eqb_eq in Hsel. subst.
    pose proof (inject_filePath_skips_any s toolCall _ Htool (or_intror Hfile))
      as Hinject.
    destruct (registered_tool_found "file_analyst" file_analyst_registered)
      as (t & Hfind & Hname & Hin).
    rewrite (dispatch_invokes s toolCall toolCall ti "file_analyst" t
               Hinject Htool Hfind Hti).
    split; [split; [discriminate |] | right; left; exists t; eexists; split; [exact Hin | reflexivity]].
    intros [H | [(fp' & ti' & _ & Hfile' & _) | (sel & [= <-] & Hnone & _)]];
      [discriminate | congruence | contradiction].
  - (* any other tool *)
    pose proof (inject_filePath_skips_any s toolCall _ Htool (or_introl Hsel))
      as Hinject.
    destruct (find_tool selected) as [t|] eqn:Hfind.
    + destruct (find_tool_string selected t Hfind) as (n & -> & Hname & Hin).
      rewrite (dispatch_invokes s toolCall toolCall ti n t Hinject Htool Hfind Hti).
      split; [split; [discriminate |] | right; left; exists t; eexists; split; [exact Hin | reflexivity]].
      intros [H | [(fp' & ti' & [= ->] & _) | (sel & [= <-] & Hnone & _)]];
        [discriminate | discriminate | congruence].
    + unfold dispatch. rewrite Hinject. cbn [bind]. rewrite Htool. cbn [must bind].
      rewrite Hfind. destruct (ToString selected) as [shown|] eqn:Hshown; simpl.
      * split; [split; [discriminate |] | left; eexists; reflexivity].
        intros [H | [(fp' & ti' & [= ->] & _) | (sel & [= <-] & _ & Hno)]];
          [discriminate | discriminate | congruence].
      * split; [split; [intros _ | reflexivity] | auto].
        right. right. exists selected. auto.
Qed.

Lemma find_tool_not_a_string (selected : value) :
  (forall n, selected <> VStr n) -> find_tool selected = None.
Proof.
  intros Hsel. destruct (find_tool selected) as [t|] eqn:E; [| reflexivity].
  destruct (find_tool_string selected t E) as (n & -> & _).
  now destruct (Hsel n).
Qed.

(** X12.  A [tool] that is not a string selects nothing: when the parsed
    call has no [tool] field, or one that is a number, a boolean, null, an
    array or an object, no tool is looked up under that name and nothing
    is invoked; the Executor returns one record whose output names the
    value as a template literal prints it ("undefined" for a missing
    field), under the tool "unknown_tool" when the value is falsy. *)
Theorem tool_that_is_not_a_string
  (s : State) (content : string) (rest : Eff Update)
  (toolCall selected : value) (shown : string) :
  answered content (executeTools s) rest ->
  JSON_parse (extractJson content) = Some toolCall ->
  get toolCall "tool" = Some selected ->
  (forall n, selected <> VStr n) ->
  ToString selected = Some shown ->
  rest = Ret (pastSteps_update
                [ {| tool := if truthy selected then selected
                             else VStr "unknown_tool";
                     tool_output := VStr (not_found_message shown) |} ]).
Proof.
  intros Hrest Hparse Htool Hsel Hshown.
  apply executeTools_answered in Hrest. rewrite Hparse in Hrest.
  assert (Hinject : inject_filePath s toolCall = Ret toolCall).
  { unfold inject_filePath. rewrite Htool. cbn [must bind].
    destruct selected; try reflexivity. now destruct (Hsel s0). }
  unfold dispatch in Hrest. rewrite Hinject in Hrest. cbn [bind] in Hrest.
  rewrite Htool in Hrest. cbn [must bind] in Hrest.
  rewrite (find_tool_not_a_string selected Hsel), Hshown in Hrest.
  exact Hrest.
Qed.

End Calls.

(** ** The chat endpoint *)

Section Endpoint.

Context {number : Type} {host : Host number}.

Local Abbreviation value := (value number).
Local Abbreviation State := (@State number).
Local Abbreviation Config := (@Config number).
Local Abbreviation Env := (Env number).



End Endpoint.

(** ** The functions of the tools *)

Section ToolProperties.

Context {number : Type} {host : Host number} {runtime : Runtime number}.

Local Abbreviation value := (value number).
Local Abbreviation IO := (IO number).

Ltac guard_case :=
  split; [ intros H; try discriminate H; auto | intros H; try reflexivity ].

Lemma query_guard (toolInput : value) (f : value -> IO value)
  (after : string -> IO value) :
  (forall q, after q <> Pure (VStr missing_query)) ->
  f toolInput = (if negb (truthy (optional toolInput "query"))
                 then text_value missing_query
                 else io_bind (interpolate (optional toolInput "query")) after) ->
  f toolInput = Pure (VStr missing_query)
  <-> truthy (optional toolInput "query") = false.
Proof.
  intros Hafter ->. destruct (truthy (optional toolInput "query")); simpl.
  - unfold interpolate. destruct (ToString _) as [q|]; simpl.
    + split; [intros H; now apply Hafter in H | discriminate].
    + split; discriminate.
  - split; reflexivity.
Qed.

(** X14.  Every tool answers with its usage error exactly when its
    arguments are missing, and then makes no request.  The weather tool
    misses a coordinate only when it is undefined (zero and null pass);
    the search tools miss a query that is falsy (absent, null, empty);
    the file analyst needs both its path and its query. *)
Theorem tools_refuse_missing_arguments (toolInput : value) :
  (get_weather_forecast_func toolInput = Pure (VStr missing_coordinates)
   <-> optional toolInput "latitude" = VUndefined
       \/ optional toolInput "longitude" = VUndefined) /\
  (github_repo_search_func toolInput = Pure (VStr missing_query)
   <-> truthy (optional toolInput "query") = false) /\
  (wikipedia_search_func toolInput = Pure (VStr missing_query)
   <-> truthy (optional toolInput "query") = false) /\
  (arxiv_search_func toolInput = Pure (VStr missing_query)
   <-> truthy (optional toolInput "query") = false) /\
  (mdn_web_search_func toolInput = Pure (VStr missing_query)
   <-> truthy (optional toolInput "query") = false) /\
  (file_analyst_func toolInput = Pure (VStr missing_file_arguments)
   <-> truthy (optional toolInput "filePath") = false
       \/ truthy (optional toolInput "query") = false).
Proof.
  split; [| split; [| split; [| split; [| split]]]].
  - unfold get_weather_forecast_func.
    destruct (optional toolInput "latitude") eqn:Hlat;
      destruct (optional toolInput "longitude") eqn:Hlon; simpl;
      try (split; [auto | reflexivity]);
      unfold interpolate;
      repeat match goal with
        | |- context [match ?x with Some _ => _ | None => _ end] =>
            destruct x; simpl
        end;
      (split; [discriminate | intros [H | H]; discriminate]).
  - eapply query_guard; [| reflexivity]. intros q. simpl. discriminate.
  - eapply query_guard; [| reflexivity]. intros q. simpl. discriminate.
  - eapply query_guard; [| reflexivity]. intros q. simpl. discriminate.
  - eapply query_guard; [| reflexivity]. intros q. simpl. discriminate.
  - unfold file_analyst_func.
    destruct (truthy (optional toolInput "filePath"));
      destruct (truthy (optional toolInput "query")); simpl;
      try (split; [auto | reflexivity]).
    unfold interpolate.
    repeat match goal with
      | |- context [match ?x with Some _ => _ | None => _ end] =>
          destruct x; simpl
      end;
    (split; [discriminate | intros [H | H]; discriminate]).
Qed.

(** X15.  The file analyst contains its failures: when its two arguments
    print, it never throws and always returns a text.  With both present
    it reads the file at the given path and nothing else; a file that
    cannot be read and a model call that is rejected come back as the text
    of the error, and otherwise the answer of the model on the content and
    the query is returned. *)
Theorem file_analyst_contains_its_failures (toolInput : value) (p q : string) :
  ToString (optional toolInput "filePath") = Some p ->
  ToString (optional toolInput "query") = Some q ->
  always is_text (file_analyst_func toolInput) /\
  (truthy (optional toolInput "filePath") = true ->
   truthy (optional toolInput "query") = true ->
   exists k,
     file_analyst_func toolInput = ReadFile (optional toolInput "filePath") k /\
     (forall message,
         k (Reject message)
         = Pure (VStr ("Error reading or analyzing file: " ++ message))) /\
     forall content,
     exists k',
       k (Answer content) = AskModel (file_question content q) k' /\
       (forall message,
           k' (Reject message)
           = Pure (VStr ("Error reading or analyzing file: " ++ message))) /\
       forall answer, k' (Answer answer) = Pure (VStr answer)).
Proof.
  intros Hp Hq. unfold file_analyst_func.
  destruct (truthy (optional toolInput "filePath"));
    destruct (truthy (optional toolInput "query")); simpl;
    try (split; [unfold is_text; eauto | intros; discriminate]).
  unfold interpolate. rewrite Hp, Hq. simpl. split.
  - intros [content | message]; simpl; [| unfold is_text; eauto].
    intros [answer | message]; simpl; unfold is_text; eauto.
  - intros _ _. eexists. split; [reflexivity |]. split; [reflexivity |].
    intros content. eexists. split; [reflexivity |]. split; reflexivity.
Qed.

(** X16.  The Wikipedia and weather tools contain their failures too: when
    the query prints, the Wikipedia tool always returns a text, the
    "could not find" text whenever the lookup is rejected or its summary
    cannot be printed; when both coordinates print, the weather tool never
    throws, a failed request or a body that is not JSON coming back as
    the text of the error. *)
Theorem lookups_contain_their_failures (toolInput : value) :
  (forall q,
      ToString (optional toolInput "query") = Some q ->
      always is_text (wikipedia_search_func toolInput) /\
      (truthy (optional toolInput "query") = true ->
       exists k,
         wikipedia_search_func toolInput
         = WikipediaSummary (optional toolInput "query") k /\
         forall message,
           k (Reject message)
           = Pure (VStr ("Could not find a Wikipedia page for "
                         ++ DQ ++ q ++ DQ ++ ".")))) /\
  (forall lat lon,
      ToString (optional toolInput "latitude") = Some lat ->
      ToString (optional toolInput "longitude") = Some lon ->
      always (fun _ => True) (get_weather_forecast_func toolInput) /\
      (optional toolInput "latitude" <> VUndefined ->
       optional toolInput "longitude" <> VUndefined ->
       exists k,
         get_weather_forecast_func toolInput = Fetch (forecast_url lat lon) None k /\
         (forall message,
             k (Reject message)
             = Pure (VStr ("Error getting weather forecast: " ++ message))) /\
         (forall body,
             JSON_parse body = None ->
             k (Answer body)
             = Pure (VStr ("Error getting weather forecast: " ++ invalid_json body))))).
Proof.
  split.
  - intros q Hq. unfold wikipedia_search_func.
    destruct (truthy (optional toolInput "query")); simpl;
      [| split; [unfold is_text; eauto | discriminate]].
    unfold interpolate. rewrite Hq. simpl. split.
    + intros [summary | message]; simpl; [| unfold is_text; eauto].
      unfold read. destruct (get summary "extract") as [extract|]; simpl;
        [| unfold is_text; eauto].
      destruct (ToString extract); simpl; unfold is_text; eauto.
    + intros _. eexists. split; reflexivity.
  - intros lat lon Hlat Hlon. unfold get_weather_forecast_func.
    destruct (is_undefined (optional toolInput "latitude")) eqn:Hulat;
      [split; [exact I | intros H; destruct (optional toolInput "latitude");
                         try discriminate; congruence] |].
    destruct (is_undefined (optional toolInput "longitude")) eqn:Hulon;
      [split; [exact I | intros _ H; destruct (optional toolInput "longitude");
                         try discriminate; congruence] |].
    simpl. unfold interpolate. rewrite Hlat, Hlon. simpl. split.
    + intros [body | message]; simpl; [| exact I].
      unfold body_json. destruct (JSON_parse body) as [data|]; simpl; [| exact I].
      unfold read. destruct (get data "current"); simpl; exact I.
    + intros _ _. eexists. split; [reflexivity |]. split; [reflexivity |].
      intros body Hbody. simpl. unfold body_json. now rewrite Hbody.
Qed.

End ToolProperties.

Section Searches.

Context {number : Type} {host : Host number} {runtime : Runtime number}.

Local Abbreviation value := (value number).
Local Abbreviation IO := (IO number).

Lemma read_object (item : value) (k : string) :
  item <> VNull -> item <> VUndefined ->
  read item k = Pure (optional item k).
Proof.
  intros Hnull Hundef. unfold read, optional.
  destruct item; try congruence; reflexivity.
Qed.

Lemma each_repository (elems : list value) :
  Forall (fun item => item <> VNull /\ item <> VUndefined) elems ->
  each repository elems
  = Pure (map (fun item =>
                 VObj [("full_name", optional item "full_name");
                       ("url", optional item "html_url");
                       ("description", optional item "description")]) elems).
Proof.
  induction 1 as [| item elems [Hnull Hundef] _ IH]; [reflexivity |].
  simpl. unfold repository at 1. rewrite !read_object by assumption.
  simpl. now rewrite IH.
Qed.

(** X17.  The GitHub search contains nothing: with a query that prints, it
    requests the search address with the query inserted as it is and the
    authorization header, and a rejected request, a body that is not JSON
    and a body whose [items] is not an array (the object of an API error,
    for one) all make it throw. *)
Theorem github_search_lets_failures_escape (toolInput : value) (q : string) :
  truthy (optional toolInput "query") = true ->
  ToString (optional toolInput "query") = Some q ->
  exists k,
    github_repo_search_func toolInput
    = Fetch ("https://api.github.com/search/repositories?q=" ++ q ++ "&per_page=5")
        (Some github_authorization) k /\
    (forall message, k (Reject message) = Raise message) /\
    (forall body,
        JSON_parse body = None -> k (Answer body) = Raise (invalid_json body)) /\
    (forall body data items,
        JSON_parse body = Some data ->
        get data "items" = Some items ->
        (forall elems own, items <> VArr elems own) ->
        exists message, k (Answer body) = Raise message).
Proof.
  intros Htruthy Hq. unfold github_repo_search_func.
  rewrite Htruthy. simpl. unfold interpolate. rewrite Hq. simpl.
  eexists. split; [reflexivity |]. split; [reflexivity |]. split.
  - intros body Hbody. simpl. unfold body_json. now rewrite Hbody.
  - intros body data items Hbody Hitems Hshape. simpl.
    unfold body_json. rewrite Hbody. simpl. unfold read. rewrite Hitems. simpl.
    destruct items; simpl; eauto. now destruct (Hshape elems own).
Qed.

(** X18.  On a body whose [items] is an array of objects, the GitHub search
    returns the serialization of one object per item, in order, made of
    the item's [full_name], of its [html_url] under the key [url], and of
    its [description]; every other field of the items is dropped. *)
Theorem github_search_projects_items
  (toolInput : value) (q body : string) (data : value)
  (elems : list value) (own : list (string * value)) :
  truthy (optional toolInput "query") = true ->
  ToString (optional toolInput "query") = Some q ->
  JSON_parse body = Some data ->
  get data "items" = Some (VArr elems own) ->
  Forall (fun item => item <> VNull /\ item <> VUndefined) elems ->
  exists k,
    github_repo_search_func toolInput
    = Fetch (github_url q) (Some github_authorization) k /\
    k (Answer body)
    = Pure (JSON_stringify_compact
              (VArr (map (fun item =>
                            VObj [("full_name", optional item "full_name");
                                  ("url", optional item "html_url");
                                  ("description", optional item "description")])
                       elems) [])).
Proof.
  intros Htruthy Hq Hbody Hitems Hobjects. unfold github_repo_search_func.
  rewrite Htruthy. simpl. unfold interpolate. rewrite Hq. simpl.
  eexists. split; [reflexivity |].
  simpl. unfold body_json. rewrite Hbody. simpl. unfold read. rewrite Hitems.
  simpl. now rewrite (each_repository elems Hobjects).
Qed.

(** X19.  An ArXiv feed without entries is no error: with a query that
    prints, the tool requests the query address with the query
    percent-encoded, has the body parsed as XML, and when the feed has no
    [entry], or an empty list of them, returns the text that no paper was
    found for the query. *)
Theorem arxiv_search_without_entries (toolInput : value) (q : string) :
  truthy (optional toolInput "query") = true ->
  ToString (optional toolInput "query") = Some q ->
  exists k,
    arxiv_search_func toolInput
    = Fetch ("http://export.arxiv.org/api/query?search_query=all:"
             ++ encodeURIComponent q ++ "&start=0&max_results=3") None k /\
    forall xml,
    exists k',
      k (Answer xml) = ParseXml xml k' /\
      forall jsonData feed entries,
        get jsonData "feed" = Some feed ->
        get feed "entry" = Some entries ->
        truthy entries = false \/ (exists own, entries = VArr [] own) ->
        k' (Answer jsonData)
        = Pure (VStr ("No papers found on ArXiv for the query: " ++ DQ ++ q ++ DQ)).
Proof.
  intros Htruthy Hq. unfold arxiv_search_func.
  rewrite Htruthy. simpl. unfold interpolate. rewrite Hq. simpl.
  eexists. split; [reflexivity |]. intros xml. eexists. split; [reflexivity |].
  intros jsonData feed entries Hfeed Hentry Hnone. simpl.
  unfold read. rewrite Hfeed. simpl. rewrite Hentry. simpl.
  destruct Hnone as [Hfalsy | (own & ->)].
  - now rewrite Hfalsy.
  - reflexivity.
Qed.

End Searches.

(** ** The further properties at concrete requests *)

Section MoreInstances.

Import MiniHost MiniRuntime Examples MoreExamples.

Local Abbreviation value := (value Z).

Lemma not_included (p s : string) : Str.includes p s = false -> ~ Str.occurs p s.
Proof. intros H Hocc. apply StrFacts.includes_occurs in Hocc. congruence. Qed.

Lemma extractJson_unwraps_witness :
  ~ Str.occurs fence_open ("Here is the call:" ++ Str.LF) /\
  ~ Str.occurs fence_close "{}" /\
  extractJson (("Here is the call:" ++ Str.LF) ++ fence_open ++ "{}" ++ fence_close
               ++ Str.LF ++ "Done.") = "{}".
Proof.
  assert (Hpre : ~ Str.occurs fence_open ("Here is the call:" ++ Str.LF))
    by (apply not_included; reflexivity).
  assert (Hpayload : ~ Str.occurs fence_close "{}")
    by (apply not_included; reflexivity).
  repeat (split; [assumption |]).
  exact (extractJson_unwraps _ "{}" (Str.LF ++ "Done.") Hpre Hpayload).
Defined.

Lemma ada_reachable : reachable workflow (entry_config query None) ada_final.
Proof. apply (run_reachable ada_env 50). vm_compute. reflexivity. Qed.

Lemma run_state_discipline_witness :
  reachable workflow (entry_config query None) ada_final /\
  input (current ada_final) = query /\
  filePath (current ada_final) = None /\
  (In "responder" (visited ada_final) ->
   exists answer, response (current ada_final) = VStr answer) /\
  (~ In "responder" (visited ada_final) ->
   response (current ada_final) = VUndefined).
Proof.
  split; [exact ada_reachable |].
  exact (run_state_discipline query None ada_final ada_reachable).
Defined.

Lemma records_hold_no_object_witness :
  reachable workflow (entry_config query None) ada_final /\
  Forall (fun record =>
            is_object (tool_output record) = false /\
            exists shown, ToString (tool record) = Some shown)
    (pastSteps (current ada_final)).
Proof.
  split; [exact ada_reachable |].
  exact (records_hold_no_object query None ada_final ada_reachable).
Defined.

Lemma responder_reaches_the_model_witness :
  reachable workflow (entry_config query None) ada_final /\
  exists sent,
    asked (responder (current ada_final)) = Some sent /\
    Str.occurs query sent /\
    (forall record, In record (pastSteps (current ada_final)) ->
                    exists line, show_step record = Some line /\ Str.occurs line sent) /\
    (forall content,
        resume content (responder (current ada_final))
        = Ret (response_update (VStr content))).
Proof.
  split; [exact ada_reachable |].
  exact (responder_reaches_the_model query None ada_final ada_reachable).
Defined.

Lemma unparseable_plan_skips_the_executor_witness :
  2 <= 50 /\
  llm prose_plan_env (planPrompt query) = Answer prose_reply /\
  JSON_parse (extractJson prose_reply) = None /\
  match run prose_plan_env (run_graph (compile workflow 50) query None) with
  | Returned c =>
      visited c = ["planner"; "responder"] /\
      plan (current c) = VArr [VStr "PLAN_COMPLETE"] [] /\
      pastSteps (current c) = [] /\
      llm prose_plan_env (responderPrompt query "") = Answer
        match response (current c) with VStr answer => answer | _ => "" end /\
      exists answer, response (current c) = VStr answer
  | Raised e =>
      exists msg, e = External msg /\
                  llm prose_plan_env (responderPrompt query "") = Reject msg
  end.
Proof.
  assert (Hlimit : 2 <= 50) by lia.
  assert (Hllm : llm prose_plan_env (planPrompt query) = Answer prose_reply)
    by (vm_compute; reflexivity).
  assert (Hparse : JSON_parse (extractJson prose_reply) = None) by reflexivity.
  repeat (split; [assumption |]).
  exact (unparseable_plan_skips_the_executor prose_plan_env 50 query None
           prose_reply Hlimit Hllm Hparse).
Defined.

Lemma unparseable_tool_call_is_explained_witness :
  3 <= 50 /\
  llm prose_call_env (planPrompt query) = Answer plan_reply /\
  parse_plan plan_reply = Some (VArr [VStr step] []) /\
  step <> "PLAN_COMPLETE" /\
  llm prose_call_env (toolCallPrompt step query) = Answer prose_reply /\
  JSON_parse (extractJson prose_reply) = None /\
  match run prose_call_env (run_graph (compile workflow 50) query None) with
  | Returned c =>
      visited c = ["planner"; "execute_tools"; "responder"] /\
      pastSteps (current c) = [invalid_tool_call]
  | Raised e => False
  end.
Proof.
  assert (Hlimit : 3 <= 50) by lia.
  assert (Hplanned : llm prose_call_env (planPrompt query) = Answer plan_reply)
    by (vm_compute; reflexivity).
  assert (Hplan : parse_plan plan_reply = Some (VArr [VStr step] []))
    by reflexivity.
  assert (Hstep : step <> "PLAN_COMPLETE") by discriminate.
  assert (Hcalled : llm prose_call_env (toolCallPrompt step query) = Answer prose_reply)
    by (vm_compute; reflexivity).
  assert (Hparse : JSON_parse (extractJson prose_reply) = None) by reflexivity.
  repeat (split; [assumption |]).
  pose proof (unparseable_tool_call_is_explained prose_call_env 50 query None
                plan_reply prose_reply step Hlimit Hplanned Hplan Hstep Hcalled
                Hparse) as H.
  cbv zeta in H.
  destruct (run prose_call_env (run_graph (compile workflow 50) query None))
    as [c | e] eqn:Hrun.
  - destruct H as (Hv & Hp & _). split; assumption.
  - vm_compute in Hrun. discriminate Hrun.
Defined.

Lemma present_arguments_are_passed_unchanged_witness :
  answered call_wikipedia (executeTools (planned None))
    (resume call_wikipedia (executeTools (planned None))) /\
  JSON_parse (extractJson call_wikipedia) = Some parsed_wikipedia /\
  get parsed_wikipedia "tool" = Some (VStr "wikipedia_search") /\
  In "wikipedia_search" (map name tools) /\
  get parsed_wikipedia "tool_input" = Some (VObj [("query", VStr "Ada Lovelace")]) /\
  truthy (VObj [("query", VStr "Ada Lovelace")] : value) = true /\
  ("wikipedia_search" = "file_analyst" -> filePath_set (planned None) = None) /\
  exists t,
    In t tools /\ name t = "wikipedia_search" /\
    resume call_wikipedia (executeTools (planned None))
    = ToolInvoke t (VObj [("query", VStr "Ada Lovelace")])
        (fun raw_tool_output =>
           Ret (pastSteps_update
                  [ {| tool := VStr "wikipedia_search";
                       tool_output :=
                         if is_object raw_tool_output
                         then VStr (JSON_stringify raw_tool_output)
                         else raw_tool_output |} ])).
Proof.
  assert (Hrest : answered call_wikipedia (executeTools (planned None))
                    (resume call_wikipedia (executeTools (planned None))))
    by (apply answered_resume; reflexivity).
  assert (Hparse : JSON_parse (extractJson call_wikipedia) = Some parsed_wikipedia)
    by reflexivity.
  assert (Htool : get parsed_wikipedia "tool" = Some (VStr "wikipedia_search"))
    by reflexivity.
  assert (Hreg : In "wikipedia_search" (map name tools)) by (simpl; auto 10).
  assert (Hti : get parsed_wikipedia "tool_input"
                = Some (VObj [("query", VStr "Ada Lovelace")])) by reflexivity.
  assert (Htruthy : truthy (VObj [("query", VStr "Ada Lovelace")] : value) = true)
    by reflexivity.
  assert (Hfile : "wikipedia_search" = "file_analyst"
                  -> filePath_set (planned None) = None) by discriminate.
  repeat (split; [assumption |]).
  exact (present_arguments_are_passed_unchanged (planned None) call_wikipedia
           _ parsed_wikipedia _ "wikipedia_search"
           Hrest Hparse Htool Hreg Hti Htruthy Hfile).
Defined.

Lemma injection_keeps_the_other_arguments_witness :
  answered call_file_guess (executeTools (planned (Some upload)))
    (resume call_file_guess (executeTools (planned (Some upload)))) /\
  JSON_parse (extractJson call_file_guess) = Some parsed_file_guess /\
  get parsed_file_guess "tool" = Some (VStr "file_analyst") /\
  filePath (planned (Some upload)) = Some upload /\
  upload <> "" /\
  get parsed_file_guess "tool_input"
  = Some (VObj [("filePath", VStr "/tmp/guess.txt");
                ("query", VStr "Summarise the file")]) /\
  exists t args,
    In t tools /\ name t = "file_analyst" /\
    requested (resume call_file_guess (executeTools (planned (Some upload))))
    = Some (t, args) /\
    args = file_arguments /\
    get args "filePath" = Some (VStr upload) /\
    forall key, key <> "filePath" ->
                get args key
                = get (VObj [("filePath", VStr "/tmp/guess.txt");
                             ("query", VStr "Summarise the file")]) key.
Proof.
  assert (Hrest : answered call_file_guess (executeTools (planned (Some upload)))
                    (resume call_file_guess (executeTools (planned (Some upload)))))
    by (apply answered_resume; reflexivity).
  assert (Hparse : JSON_parse (extractJson call_file_guess) = Some parsed_file_guess)
    by reflexivity.
  assert (Htool : get parsed_file_guess "tool" = Some (VStr "file_analyst"))
    by reflexivity.
  assert (Hfile : filePath (planned (Some upload)) = Some upload) by reflexivity.
  assert (Hfp : upload <> "") by discriminate.
  assert (Hti : get parsed_file_guess "tool_input"
                = Some (VObj [("filePath", VStr "/tmp/guess.txt");
                              ("query", VStr "Summarise the file")]))
    by reflexivity.
  repeat (split; [assumption |]).
  exact (injection_keeps_the_other_arguments (planned (Some upload)) call_file_guess
           _ parsed_file_guess _ upload Hrest Hparse Htool Hfile Hfp Hti).
Defined.

(** Arguments that are a text, with an attached file: the second case. *)
Lemma executor_throws_exactly_witness :
  answered call_file_text (executeTools (planned (Some upload)))
    (resume call_file_text (executeTools (planned (Some upload)))) /\
  JSON_parse (extractJson call_file_text) = Some parsed_file_text /\
  resume call_file_text (executeTools (planned (Some upload))) = Throw TypeError.
Proof.
  assert (Hrest : answered call_file_text (executeTools (planned (Some upload)))
                    (resume call_file_text (executeTools (planned (Some upload)))))
    by (apply answered_resume; reflexivity).
  assert (Hparse : JSON_parse (extractJson call_file_text) = Some parsed_file_text)
    by reflexivity.
  repeat (split; [assumption |]).
  apply (proj1 (executor_throws_exactly (planned (Some upload)) call_file_text
                  _ parsed_file_text Hrest Hparse)).
  right. left. exists upload, (VStr "notes.txt"). repeat split; reflexivity.
Defined.

Lemma tool_that_is_not_a_string_witness :
  answered "{}" (executeTools (planned None))
    (resume "{}" (executeTools (planned None))) /\
  JSON_parse (extractJson "{}") = Some (VObj []) /\
  get (VObj [] : value) "tool" = Some VUndefined /\
  (forall n, (VUndefined : value) <> VStr n) /\
  ToString (VUndefined : value) = Some "undefined" /\
  resume "{}" (executeTools (planned None))
  = Ret (pastSteps_update
           [ {| tool := VStr "unknown_tool";
                tool_output := VStr (not_found_message "undefined") |} ]).
Proof.
  assert (Hrest : answered "{}" (executeTools (planned None))
                    (resume "{}" (executeTools (planned None))))
    by (apply answered_resume; reflexivity).
  assert (Hparse : JSON_parse (extractJson "{}") = Some (VObj [])) by reflexivity.
  assert (Htool : get (VObj [] : value) "tool" = Some VUndefined) by reflexivity.
  assert (Hsel : forall n, (VUndefined : value) <> VStr n) by discriminate.
  assert (Hshown : ToString (VUndefined : value) = Some "undefined") by reflexivity.
  repeat (split; [assumption |]).
  exact (tool_that_is_not_a_string (planned None) "{}" _ (VObj []) VUndefined
           "undefined" Hrest Hparse Htool Hsel Hshown).
Defined.

Lemma file_analyst_contains_its_failures_witness :
  ToString (optional file_arguments "filePath") = Some upload /\
  ToString (optional file_arguments "query") = Some "Summarise the file" /\
  always is_text (file_analyst_func file_arguments) /\
  perform offline (file_analyst_func file_arguments)
  = inl (VStr "Error reading or analyzing file: ENOENT: no such file or directory").
Proof.
  assert (Hp : ToString (optional file_arguments "filePath") = Some upload)
    by reflexivity.
  assert (Hq : ToString (optional file_arguments "query")
               = Some "Summarise the file") by reflexivity.
  repeat (split; [assumption |]).
  split; [| reflexivity].
  exact (proj1 (file_analyst_contains_its_failures file_arguments upload
                  "Summarise the file" Hp Hq)).
Defined.

Lemma github_search_lets_failures_escape_witness :
  truthy (optional search_arguments "query") = true /\
  ToString (optional search_arguments "query") = Some "proof assistant" /\
  exists k,
    github_repo_search_func search_arguments
    = Fetch "https://api.github.com/search/repositories?q=proof assistant&per_page=5"
        (Some "token undefined") k /\
    (forall message, k (Reject message) = Raise message) /\
    perform offline (github_repo_search_func search_arguments) = inr "fetch failed".
Proof.
  assert (Htruthy : truthy (optional search_arguments "query") = true)
    by reflexivity.
  assert (Hq : ToString (optional search_arguments "query") = Some "proof assistant")
    by reflexivity.
  repeat (split; [assumption |]).
  destruct (github_search_lets_failures_escape search_arguments "proof assistant"
              Htruthy Hq) as (k & Hk & Hreject & _).
  exists k. split; [exact Hk |]. split; [exact Hreject | reflexivity].
Defined.

Lemma github_search_projects_items_witness :
  truthy (optional search_arguments "query") = true /\
  ToString (optional search_arguments "query") = Some "proof assistant" /\
  JSON_parse github_body
  = Some (VObj [("total_count", VNum 1%Z); ("items", VArr [github_item] [])]) /\
  get (VObj [("total_count", VNum 1%Z); ("items", VArr [github_item] [])] : value)
    "items" = Some (VArr [github_item] []) /\
  Forall (fun item : value => item <> VNull /\ item <> VUndefined) [github_item] /\
  exists k,
    github_repo_search_func search_arguments
    = Fetch (github_url "proof assistant") (Some github_authorization) k /\
    k (Answer github_body)
    = Pure (VStr github_answer).
Proof.
  assert (Htruthy : truthy (optional search_arguments "query") = true)
    by reflexivity.
  assert (Hq : ToString (optional search_arguments "query") = Some "proof assistant")
    by reflexivity.
  assert (Hbody : JSON_parse github_body
                  = Some (VObj [("total_count", VNum 1%Z);
                                ("items", VArr [github_item] [])]))
    by reflexivity.
  assert (Hitems : get (VObj [("total_count", VNum 1%Z);
                              ("items", VArr [github_item] [])] : value) "items"
                   = Some (VArr [github_item] [])) by reflexivity.
  assert (Hobjects : Forall (fun item : value => item <> VNull /\ item <> VUndefined)
                       [github_item]).
  { repeat constructor; discriminate. }
  repeat (split; [assumption |]).
  destruct (github_search_projects_items search_arguments "proof assistant"
              github_body _ [github_item] [] Htruthy Hq Hbody Hitems Hobjects)
    as (k & Hk & Hanswer).
  exists k. split; [exact Hk |]. rewrite Hanswer. reflexivity.
Defined.

Lemma arxiv_search_without_entries_witness :
  truthy (optional search_arguments "query") = true /\
  ToString (optional search_arguments "query") = Some "proof assistant" /\
  exists k,
    arxiv_search_func search_arguments
    = Fetch "http://export.arxiv.org/api/query?search_query=all:proof%20assistant&start=0&max_results=3"
        None k /\
    forall xml,
    exists k',
      k (Answer xml) = ParseXml xml k' /\
      k' (Answer empty_feed)
      = Pure (VStr ("No papers found on ArXiv for the query: "
                    ++ DQ ++ "proof assistant" ++ DQ)).
Proof.
  assert (Htruthy : truthy (optional search_arguments "query") = true)
    by reflexivity.
  assert (Hq : ToString (optional search_arguments "query") = Some "proof assistant")
    by reflexivity.
  repeat (split; [assumption |]).
  destruct (arxiv_search_without_entries search_arguments "proof assistant"
              Htruthy Hq) as (k & Hk & Hxml).
  exists k. split; [exact Hk |]. intros xml.
  destruct (Hxml xml) as (k' & Hk' & Hnone).
  exists k'. split; [exact Hk' |].
  apply (Hnone empty_feed (VObj [("title", VArr [VStr "ArXiv Query"] [])]) VUndefined);
    [reflexivity | reflexivity | now left].
Defined.

End MoreInstances.

(** ** What the prompts carry *)

Section Prompts.

Context {number : Type} {host : Host number}.

Import OccursFacts.

Local Abbreviation value := (value number).
Local Abbreviation State := (@State number).

Lemma last_of_steps (steps : list value) (final : value)
  (own : list (string * value)) :
  last_of (VArr (steps ++ [final]) own) = Some final.
Proof.
  unfold last_of. destruct (steps ++ [final])%list eqn:E.
  - now destruct steps.
  - now rewrite <- E, last_last.
Qed.

(** X20.  The Planner's prompt holds the query and the name of every
    registered tool.  The Executor works on the last step of the plan
    alone: for a plan of several steps that ends with a text, its prompt is
    the one of that last step and of the query, the earlier steps are not
    read. *)
Theorem prompts_carry_the_request (s : State) :
  (exists sent,
      asked (planner s) = Some sent /\
      Str.occurs (input s) sent /\
      forall t, In t tools -> Str.occurs (name t) sent) /\
  (forall steps final own,
      plan s = VArr (steps ++ [VStr final]) own ->
      asked (executeTools s) = Some (toolCallPrompt final (input s)) /\
      Str.occurs final (toolCallPrompt final (input s)) /\
      Str.occurs (input s) (toolCallPrompt final (input s))).
Proof.
  split.
  - eexists. split; [reflexivity |]. unfold planPrompt, text. split.
    + eapply occurs_trans; [| apply occurs_join; do 3 right; left; reflexivity].
      apply occurs_append_l, occurs_refl.
    + intros t Ht.
      eapply occurs_trans; [| apply occurs_join; do 8 right; left; reflexivity].
      apply occurs_append_l, occurs_append_r, occurs_join.
      now apply in_map.
  - intros steps final own Hplan. unfold executeTools.
    rewrite Hplan, last_of_steps. simpl. split; [reflexivity |].
    unfold toolCallPrompt, text. split.
    + eapply occurs_trans; [| apply occurs_join; right; left; reflexivity].
      apply occurs_append_l, occurs_append_l, occurs_append_r, occurs_refl.
    + eapply occurs_trans; [| apply occurs_join; do 2 right; left; reflexivity].
      apply occurs_append_l, occurs_append_l, occurs_append_r, occurs_refl.
Qed.

End Prompts.

(** ** The endpoint and the tools at concrete requests *)

Section EndpointInstances.

Import MiniHost MiniRuntime Examples MoreExamples.

(** A signed-in question is answered with the Responder's text; the same
    question without a session, a signed-in empty prompt and a signed-in
    request without a body are not. *)
Lemma chat_examples :
  chat (fun p => "/srv/app/" ++ p) ada_invoke (signed_in (ask query))
  = Returned {| status := 200;
                json := [("response",
                          VStr "Ada Lovelace wrote the first published program.")] |}
  /\ chat (fun p => "/srv/app/" ++ p) ada_invoke
       {| isAuthenticated := false; body := ask query; file := None |}
     = Returned (error_reply 401 "User not authenticated")
  /\ chat (fun p => "/srv/app/" ++ p) ada_invoke (signed_in (ask ""))
     = Returned (error_reply 400 "Prompt is required")
  /\ chat (fun p => "/srv/app/" ++ p) ada_invoke (signed_in VUndefined)
     = Raised TypeError.
Proof. repeat split; vm_compute; reflexivity. Qed.


(** Zero coordinates are coordinates; without network the failure comes
    back as a text, and the search that contains nothing throws. *)
Lemma tools_offline :
  perform offline
    (get_weather_forecast_func (VObj [("latitude", VNum 0%Z); ("longitude", VNum 0%Z)]))
  = inl (VStr "Error getting weather forecast: fetch failed")
  /\ perform offline (wikipedia_search_func search_arguments)
     = inl (VStr ("Could not find a Wikipedia page for "
                  ++ DQ ++ "proof assistant" ++ DQ ++ "."))
  /\ perform offline (mdn_web_search_func search_arguments) = inr "fetch failed"
  /\ perform offline (arxiv_search_func (VObj [])) = inl (VStr missing_query).
Proof. repeat split; reflexivity. Qed.

End EndpointInstances.

(** ** Complete and incomplete runs at concrete requests *)

Section CompletionInstances.

Import MiniHost Examples MoreExamples.




End CompletionInstances.
